(** * Regions of interest of cloudviz/roi.py: rectangle, circle, polygon

    A shallow embedding of the three ROI classes of [cloudviz/roi.py]
    (RectangularROI, CircularROI, PolygonalROI) and the properties of their
    containment tests and mutators.

    Coordinates are IEEE 754 binary64 numbers, as numpy's float64 arrays and
    scalars hold them: Rocq's primitive [float], whose operations are the
    hardware ones and are specified by [FloatAxioms].  Sample arrays are
    one-dimensional ([list float]).

    One operation of the code is not an IEEE 754 operation: [** 2] on a
    scalar ([radius ** 2], [(x - a) ** 2], [thresh ** 2]) is the [pow] of
    the C library, which need not be the rounded square.  The definitions
    that use it take it as a parameter [pow2], and what is proved of them
    holds for every such function. *)

From Stdlib Require Import ZArith List Bool Lia PeanoNat.
From Stdlib Require Import Floats.
Import ListNotations.

Set Implicit Arguments.

(** ** Python values and failures *)

(** The exceptions the modelled code can raise. *)
Inductive exn : Type :=
| TypeError
| ValueError
| IndexError
| OverflowError.

(** The outcome of a call that returns a value. *)
Inductive res (A : Type) : Type :=
| Ok (a : A)
| Raise (e : exn).

Arguments Ok {A} a.
Arguments Raise {A} e.

Definition bind {A B : Type} (m : res A) (k : A -> res B) : res B :=
  match m with
  | Ok a => k a
  | Raise e => Raise e
  end.

Notation "x <- m ;; k" := (bind m (fun x => k))
  (at level 61, m at next level, right associativity).

(** The outcome of a mutator: the object's attributes after the call, also
    when the call raised (an exception does not undo earlier assignments). *)
Inductive outcome (S : Type) : Type :=
| Done (s : S)
| Raised (e : exn) (s : S).

Arguments Done {S} s.
Arguments Raised {S} e s.

Definition state_of {S : Type} (o : outcome S) : S :=
  match o with
  | Done s => s
  | Raised _ s => s
  end.

(** ** numpy float64 arithmetic *)

Module Np.

Open Scope float_scope.

(** [a > b] on float64: false as soon as one side is NaN. *)
Definition gt (a b : float) : bool := b <? a.

(** [a ** 2] on a cell of a float64 array: numpy squares an array by
    multiplying it with itself, so the cell is the square, rounded once. *)
Definition sq (a : float) : float := a * a.

(** The two types a scalar number has in the code: Python's float (the
    literal [0.]) and numpy's float64 (what [np.sqrt] returns, what an array
    cell is).  Their sums, differences, products and comparisons are the
    same binary64 operations; their powers differ. *)
Inductive kind : Type :=
| PyFloat
| Float64.

Record scalar : Type := mk_scalar {
  kind_of : kind;
  value : float
}.

Section Power.

(** [pow(a, 2.0)] of the C library on a finite [a > 0] other than 1: the
    one operation of the code that IEEE 754 does not determine.  A library
    need not round it correctly, and its result can differ from [a * a] in
    the last place. *)
Variable pow2 : float -> float.

(** [a ** 2] on a scalar of type [k].  Both types answer NaN, infinity,
    zero and 1 for a NaN, an infinity, a zero and a number of magnitude 1
    (Python's float by its own tests, numpy's float64 by what the C standard
    asks of [pow]), and the power the C library gives the magnitude of any
    other number.  When that power is infinite, a Python float raises
    OverflowError and a float64 is the infinity. *)
Definition scalar_pow2 (k : kind) (a : float) : res float :=
  if is_nan a then Ok nan
  else if is_infinity a then Ok infinity
  else if is_zero a then Ok 0
  else if abs a =? 1 then Ok 1
  else
    let r := pow2 (abs a) in
    match k with
    | PyFloat => if is_infinity r then Raise OverflowError else Ok r
    | Float64 => Ok r
    end.

End Power.

(** The power of a C library that rounds correctly: the square, rounded
    once. *)
Definition rounded_pow2 (a : float) : float := a * a.






(** An operation between each cell of an array and an attribute that is
    None while unset.  On an empty array nothing is computed and the result
    is the empty array; on any other array None is a TypeError. *)
Definition with_attribute {B : Type} (op : float -> float -> B)
           (arr : list float) (attr : option float) : res (list B) :=
  match attr with
  | Some b => Ok (map (fun a => op a b) arr)
  | None =>
      match arr with
      | [] => Ok []
      | _ :: _ => Raise TypeError
      end
  end.

(** Broadcasting of two one-dimensional arrays, elementwise paired: equal
    lengths pair up, a length-1 array is repeated, anything else is a
    ValueError. *)
Definition broadcast {A B : Type} (x : list A) (y : list B)
  : res (list (A * B)) :=
  if Nat.eqb (length x) (length y) then Ok (combine x y)
  else match x, y with
       | _, [b] => Ok (map (fun a => (a, b)) x)
       | [a], _ => Ok (map (fun b => (a, b)) y)
       | _, _ => Raise ValueError
       end.

(** Broadcasting [y] against [x] when the result is stored in place into an
    array of the shape of [x] ([result += ...]): the broadcast shape must be
    that of [x]. *)
Definition broadcast_into {A B : Type} (x : list A) (y : list B)
  : res (list (A * B)) :=
  if Nat.eqb (length x) (length y) then Ok (combine x y)
  else match y with
       | [b] => Ok (map (fun a => (a, b)) x)
       | _ => Raise ValueError
       end.

(** [a & b] on two bool arrays. *)
Definition and_ (a b : list bool) : res (list bool) :=
  ps <- broadcast a b ;;
  Ok (map (fun '(p, q) => p && q) ps).

(** [np.roll(a, 1)]: the last element comes first. *)
Definition roll {A : Type} (a : list A) : list A :=
  skipn (length a - 1) a ++ firstn (length a - 1) a.

(** An int64 cell: two's complement wrap-around. *)
Definition wrap64 (z : Z) : Z :=
  ((z + 2 ^ 63) mod 2 ^ 64 - 2 ^ 63)%Z.

(** The arrays [PolygonalROI.contains] returns: an int array of zeros for
    the empty polygon, a bool array otherwise. *)
Inductive ndarray : Type :=
| IntArray (l : list Z)
| BoolArray (l : list bool).

(** The truth value of each cell, as a mask uses it. *)
Definition mask (a : ndarray) : list bool :=
  match a with
  | IntArray l => map (fun z => negb (Z.eqb z 0)) l
  | BoolArray l => l
  end.

End Np.

(** ** Python sequences *)

Module Py.

(** The position a Python index denotes in a sequence of length [n]:
    negative indices count from the end; out of range is an IndexError. *)
Definition index (n : nat) (i : Z) : option nat :=
  let j := if (i <? 0)%Z then (i + Z.of_nat n)%Z else i in
  if ((0 <=? j) && (j <? Z.of_nat n))%Z then Some (Z.to_nat j) else None.

Fixpoint set_nth {A : Type} (l : list A) (k : nat) (v : A) : list A :=
  match l, k with
  | [], _ => []
  | _ :: t, O => v :: t
  | h :: t, S k' => h :: set_nth t k' v
  end.

(** [l[i] = v]. *)
Definition setitem {A : Type} (l : list A) (i : Z) (v : A) : res (list A) :=
  match index (length l) i with
  | Some k => Ok (set_nth l k v)
  | None => Raise IndexError
  end.

(** [min(items, key=key)]: the first item is the candidate; a later item
    replaces it when its key is strictly below the candidate's. *)
Fixpoint min_from {A : Type} (key : A -> float) (best : A) (rest : list A)
  : A :=
  match rest with
  | [] => best
  | i :: rest' =>
      if (key i <? key best)%float then min_from key i rest'
      else min_from key best rest'
  end.

Definition min_key {A : Type} (key : A -> float) (items : list A) : res A :=
  match items with
  | [] => Raise ValueError
  | i :: rest => Ok (min_from key i rest)
  end.

End Py.

(** ** RectangularROI *)

Module RectangularROI.

Open Scope float_scope.

(** The four attributes; [None] is Python's None. *)
Record t : Type := mk {
  xmin : option float;
  xmax : option float;
  ymin : option float;
  ymax : option float
}.

Definition init : t := mk None None None None.

(** [(x > xmin) & (x < xmax) & (y > ymin) & (y < ymax)], the operands
    evaluated from left to right, each [&] as soon as its two sides are. *)
Definition contains (r : t) (x y : list float) : res (list bool) :=
  a <- Np.with_attribute Np.gt x (xmin r) ;;
  b <- Np.with_attribute PrimFloat.ltb x (xmax r) ;;
  ab <- Np.and_ a b ;;
  c <- Np.with_attribute Np.gt y (ymin r) ;;
  abc <- Np.and_ ab c ;;
  d <- Np.with_attribute PrimFloat.ltb y (ymax r) ;;
  Np.and_ abc d.

Definition update_limits (r : t) (xmin' ymin' xmax' ymax' : float) : t :=
  mk (Some xmin') (Some xmax') (Some ymin') (Some ymax').

Definition reset (r : t) : t := mk None None None None.

Definition defined (r : t) : bool :=
  match xmin r with
  | Some _ => true
  | None => false
  end.

End RectangularROI.

(** ** CircularROI *)

Module CircularROI.

Open Scope float_scope.

(** The radius is a scalar of either type: [__init__] and [reset] assign
    the Python float [0.], [set_radius] whatever it is given. *)
Record t : Type := mk {
  xc : option float;
  yc : option float;
  radius : Np.scalar
}.

Definition init : t := mk None None (Np.mk_scalar Np.PyFloat 0).

Section Power.

Variable pow2 : float -> float.

(** [(x - xc) ** 2 + (y - yc) ** 2 < radius ** 2]: the two squares of
    arrays, their sum, then the power of the scalar radius, then the
    comparison. *)
Definition contains (c : t) (x y : list float) : res (list bool) :=
  dx <- Np.with_attribute PrimFloat.sub x (xc c) ;;
  dy <- Np.with_attribute PrimFloat.sub y (yc c) ;;
  ps <- Np.broadcast (map Np.sq dx) (map Np.sq dy) ;;
  r2 <- Np.scalar_pow2 pow2 (Np.kind_of (radius c)) (Np.value (radius c)) ;;
  Ok (map (fun '(dx2, dy2) => dx2 + dy2 <? r2) ps).

End Power.

Definition set_center (c : t) (x y : float) : t :=
  mk (Some x) (Some y) (radius c).

Definition set_radius (c : t) (r : Np.scalar) : t :=
  mk (xc c) (yc c) r.

Definition reset (c : t) : t := mk None None (Np.mk_scalar Np.PyFloat 0).

Definition defined (c : t) : bool :=
  match xc c with
  | Some _ => true
  | None => false
  end.

End CircularROI.

(** ** PolygonalROI *)

Module PolygonalROI.

Open Scope float_scope.

(** The vertex coordinates, in insertion order: [vx[i], vy[i]] is vertex
    [i]. *)
Record t : Type := mk {
  vx : list float;
  vy : list float
}.

Definition init : t := mk [] [].

(** The x at which the line through [(xi, yi)] and [(xj, yj)] meets the
    horizontal through [y]:
    [(xj - xi) * (y - yi) / (yj - yi) + xi]. *)
Definition x_cross (xi yi xj yj y : float) : float :=
  (xj - xi) * (y - yi) / (yj - yi) + xi.

(** The term added to [result] for one edge and one sample:
    [((yi > y) != (yj > y)) & (x < x_cross)]. *)
Definition crossing (xi yi xj yj x y : float) : bool :=
  xorb (Np.gt yi y) (Np.gt yj y) && (x <? x_cross xi yi xj yj y).

(** One turn of the loop [for i in range(len(xi))]. *)
Definition contains_step (x y xi xj yi yj : list float)
           (result : list Z) (i : nat) : res (list Z) :=
  match nth_error yi i, nth_error yj i, nth_error xj i, nth_error xi i with
  | Some yi_i, Some yj_i, Some xj_i, Some xi_i =>
      ps <- Np.broadcast_into x y ;;
      Ok (map (fun '(r, (px, py)) =>
                 Np.wrap64 (r + Z.b2z (crossing xi_i yi_i xj_i yj_i px py)))
              (combine result ps))
  | _, _, _, _ => Raise IndexError
  end.

Fixpoint for_range (body : list Z -> nat -> res (list Z))
         (range : list nat) (result : list Z) : res (list Z) :=
  match range with
  | [] => Ok result
  | i :: range' => r <- body result i ;; for_range body range' r
  end.

Definition contains (p : t) (x y : list float) : res Np.ndarray :=
  let result := repeat 0%Z (length x) in
  match vx p with
  | [] => Ok (Np.IntArray result)
  | _ :: _ =>
      let xi := vx p in
      let xj := Np.roll xi in
      let yi := vy p in
      let yj := Np.roll yi in
      r <- for_range (contains_step x y xi xj yi yj)
                     (seq 0 (length xi)) result ;;
      Ok (Np.BoolArray (map (fun z => Z.eqb (z mod 2) 1) r))
  end.



Definition add_point (p : t) (x y : float) : t :=
  mk (vx p ++ [x]) (vy p ++ [y]).

Definition reset (p : t) : t := mk [] [].

Definition replace_last_point (p : t) (x y : float) : outcome t :=
  if (0 <? length (vx p))%nat then
    match Py.setitem (vx p) (-1) x with
    | Raise e => Raised e p
    | Ok vx' =>
        match Py.setitem (vy p) (-1) y with
        | Raise e => Raised e (mk vx' (vy p))
        | Ok vy' => Done (mk vx' vy')
        end
    end
  else Done p.

(** The item [l[i]] a comprehension over indices in range yields. *)
Definition lookup {A : Type} (l : list A) (i : nat) : list A :=
  match nth_error l i with
  | Some v => [v]
  | None => []
  end.

(** [[l[i] for i in inds if i != near]]. *)
Definition without {A : Type} (l : list A) (inds : list nat) (near : nat)
  : list A :=
  flat_map (lookup l) (filter (fun i => negb (Nat.eqb i near)) inds).

Definition defined (p : t) : bool := (0 <? length (vx p))%nat.

(** The calls a client can make on a polygon; [k] is the type of the
    scalars [remove_point] computes with. *)
Inductive call : Type :=
| AddPoint (x y : float)
| ReplaceLastPoint (x y : float)
| RemovePoint (k : Np.kind) (x y : float) (thresh : option float)
| Reset
| Contains (x y : list float).

Section Power.

Variable pow2 : float -> float.

(** The squared distances of [remove_point],
    [[(x - a) ** 2 + (y - b) ** 2 for a, b in zip(vx, vy)]]: powers of
    scalars, of the type [k] of the coordinates at hand (Python floats, or
    float64 as soon as the point or the vertices are).  The first power that
    raises ends the comprehension. *)
Fixpoint dists_of (k : Np.kind) (x y : float) (vs : list (float * float))
  : res (list float) :=
  match vs with
  | [] => Ok []
  | (a, b) :: vs' =>
      dx2 <- Np.scalar_pow2 pow2 k (x - a) ;;
      dy2 <- Np.scalar_pow2 pow2 k (y - b) ;;
      rest <- dists_of k x y vs' ;;
      Ok (dx2 + dy2 :: rest)
  end.

Definition dists (k : Np.kind) (p : t) (x y : float) : res (list float) :=
  dists_of k x y (combine (vx p) (vy p)).

(** [thresh is not None and dist[near] > (thresh ** 2)]. *)
Definition too_far (k : Np.kind) (d : float) (thresh : option float)
  : res bool :=
  match thresh with
  | Some th => t2 <- Np.scalar_pow2 pow2 k th ;; Ok (Np.gt d t2)
  | None => Ok false
  end.

Definition remove_point (k : Np.kind) (p : t) (x y : float)
           (thresh : option float) : outcome t :=
  match vx p with
  | [] => Done p
  | _ :: _ =>
      match dists k p x y with
      | Raise e => Raised e p
      | Ok dist =>
          let inds := seq 0 (length dist) in
          match Py.min_key (fun i => nth i dist nan) inds with
          | Raise e => Raised e p
          | Ok near =>
              match too_far k (nth near dist nan) thresh with
              | Raise e => Raised e p
              | Ok true => Done p
              | Ok false =>
                  Done (mk (without (vx p) inds near)
                           (without (vy p) inds near))
              end
          end
      end
  end.

(** The effect of a call on the attributes of a polygon; [contains] assigns
    none. *)
Definition exec (p : t) (c : call) : t :=
  match c with
  | AddPoint x y => add_point p x y
  | ReplaceLastPoint x y => state_of (replace_last_point p x y)
  | RemovePoint k x y th => state_of (remove_point k p x y th)
  | Reset => reset p
  | Contains _ _ => p
  end.

Definition run (cs : list call) : t := fold_left exec cs init.

End Power.

(** The vertices as pairs. *)
Definition vertices (p : t) : list (float * float) :=
  combine (vx p) (vy p).

Definition of_vertices (vs : list (float * float)) : t :=
  mk (map fst vs) (map snd vs).

End PolygonalROI.

(** ** The order of binary64 numbers

    Every number that is not a NaN has a rank, a triple of integers ordered
    lexicographically, and the comparisons of [SpecFloat] are the comparisons
    of ranks.  The facts on [<?], [<=?] and [=?] the proofs below need follow
    by linear arithmetic. *)

Module FloatOrder.

Open Scope Z_scope.

Definition is_nanS (f : spec_float) : bool :=
  match f with
  | S754_nan => true
  | _ => false
  end.

Definition rk1 (f : spec_float) : Z :=
  match f with
  | S754_nan | S754_zero _ => 0
  | S754_infinity s => if s then -2 else 2
  | S754_finite s _ _ => if s then -1 else 1
  end.

Definition rk2 (f : spec_float) : Z :=
  match f with
  | S754_finite s _ e => if s then - e else e
  | _ => 0
  end.

Definition rk3 (f : spec_float) : Z :=
  match f with
  | S754_finite s m _ => if s then Z.neg m else Z.pos m
  | _ => 0
  end.

(** A number that is neither a NaN nor an infinity. *)
Definition finiteS (f : spec_float) : bool :=
  match f with
  | S754_zero _ | S754_finite _ _ _ => true
  | _ => false
  end.

Definition rank_lt (f g : spec_float) : Prop :=
  rk1 f < rk1 g \/
  rk1 f = rk1 g /\ (rk2 f < rk2 g \/ rk2 f = rk2 g /\ rk3 f < rk3 g).

Definition rank_eq (f g : spec_float) : Prop :=
  rk1 f = rk1 g /\ rk2 f = rk2 g /\ rk3 f = rk3 g.

Definition numbers (f g : spec_float) : Prop :=
  is_nanS f = false /\ is_nanS g = false.

End FloatOrder.

(** ** The properties the specification states, in its own words *)

Module Spec.

Open Scope float_scope.

Abbreviation vertex := (float * float)%type.

(** Rectangle containment of one sample:
    [(x > xmin) & (x < xmax) & (y > ymin) & (y < ymax)]. *)
Definition in_rectangle (xmin xmax ymin ymax : float) (s : float * float)
  : bool :=
  let '(x, y) := s in
  (xmin <? x) && (x <? xmax) && (ymin <? y) && (y <? ymax).

(** A point strictly inside the rectangle. *)
Definition strictly_inside (xmin xmax ymin ymax x y : float) : Prop :=
  (xmin <? x) = true /\ (x <? xmax) = true /\
  (ymin <? y) = true /\ (y <? ymax) = true.

(** A point exactly on one of the four edges of the rectangle. *)
Definition on_edge (xmin xmax ymin ymax x y : float) : Prop :=
  (((x =? xmin) = true \/ (x =? xmax) = true) /\
   (ymin <=? y) = true /\ (y <=? ymax) = true) \/
  (((y =? ymin) = true \/ (y =? ymax) = true) /\
   (xmin <=? x) = true /\ (x <=? xmax) = true).

(** What [** 2] gives on a scalar, whatever its type: a NaN, the infinity,
    zero and 1 for a NaN, an infinity, a zero and a number of magnitude 1,
    and for any other number the power [pow2] that the C library gives its
    magnitude. *)
Definition power2 (pow2 : float -> float) (a : float) : float :=
  if is_zero a then 0
  else if is_finite a then (if abs a =? 1 then 1 else pow2 (abs a))
       else if is_nan a then nan else infinity.

(** The power of a finite Python float that is infinite is an
    OverflowError; a float64 never is. *)
Definition overflows (pow2 : float -> float) (k : Np.kind) (a : float)
  : bool :=
  match k with
  | Np.PyFloat => is_finite a && is_infinity (power2 pow2 a)
  | Np.Float64 => false
  end.

(** The squared distance of a sample from the centre, as the arrays compute
    it: each difference times itself, and the sum. *)
Definition sqdist_to (xc yc : float) (s : float * float) : float :=
  let '(x, y) := s in
  (x - xc) * (x - xc) + (y - yc) * (y - yc).

(** Circle containment of one sample, given the square [r2] of the radius:
    [(x - xc)^2 + (y - yc)^2 < radius^2]. *)
Definition in_circle (xc yc r2 : float) (s : float * float) : bool :=
  sqdist_to xc yc s <? r2.



(** The predecessor of vertex [i] among [n] vertices taken cyclically:
    the predecessor of vertex 0 is the last vertex. *)
Definition pred_index (n i : nat) : nat :=
  match i with
  | O => n - 1
  | S k => k
  end.

(** The edge [(v[i], v[i-1])]. *)
Definition edge (vs : list vertex) (i : nat) : vertex * vertex :=
  (nth i vs (nan, nan), nth (pred_index (length vs) i) vs (nan, nan)).

(** The edges of the polygon, one per vertex. *)
Definition edges (vs : list vertex) : list (vertex * vertex) :=
  map (edge vs) (seq 0 (length vs)).

(** The x at which the horizontal through [y] meets the line of the edge
    [(vi, vj)]: from [vi.x], the share [(y - vi.y) / (vj.y - vi.y)] of the
    way to [vj.x]. *)
Definition x_intersection (e : vertex * vertex) (y : float) : float :=
  let '((xi, yi), (xj, yj)) := e in
  xi + (y - yi) * (xj - xi) / (yj - yi).

(** The horizontal ray from [(x, y)] crosses the edge [(vi, vj)]: exactly
    one of [vi.y > y], [vj.y > y] holds, and the x of the intersection of
    the ray with the edge exceeds [x]. *)
Definition crosses (x y : float) (e : vertex * vertex) : bool :=
  xorb (y <? snd (fst e)) (y <? snd (snd e))
  && (x <? x_intersection e y).

(** The even-odd rule: inside iff the number of crossed edges is odd. *)
Definition inside (vs : list vertex) (s : float * float) : bool :=
  let '(x, y) := s in
  Nat.odd (length (filter (crosses x y) (edges vs))).

(** The cell of [result] of a sample after the turns of the loop for the
    edges [es], from the value [r]. *)
Definition tally (s : float * float) (es : list (vertex * vertex)) (r : Z)
  : Z :=
  fold_left (fun r e => Np.wrap64 (r + Z.b2z (crosses (fst s) (snd s) e)))
            es r.











(** The invariant of a polygon: as many x as y coordinates. *)
Definition paired (p : PolygonalROI.t) : Prop :=
  length (PolygonalROI.vx p) = length (PolygonalROI.vy p).

End Spec.

Definition unit_square_vertices : list Spec.vertex :=
  [(0, 0); (1, 0); (1, 1); (0, 1)]%float.





(** ** The rendering subclasses and the selection tools

    [MplRectangularROI], [MplCircularROI] and [MplPolygonalROI] keep a
    matplotlib patch in step with the region; the four tools drive them from
    mouse events.  Of a patch the geometry and the visibility are modelled,
    not the appearance set from [plot_opts]; of the canvas, the number of
    times it was redrawn. *)

Module Builtin.

Open Scope float_scope.

(** [min(a, b)]: [b] when [b < a], [a] otherwise. *)
Definition min2 (a b : float) : float := if b <? a then b else a.

(** [max(a, b)]: [b] when [b > a], [a] otherwise. *)
Definition max2 (a b : float) : float := if Np.gt b a then b else a.

End Builtin.

(** Running a second call on the state the first one left, unless the first
    one raised. *)
Definition and_then {S : Type} (o : outcome S) (k : S -> outcome S)
  : outcome S :=
  match o with
  | Done s => k s
  | Raised e s => Raised e s
  end.

Module Mpl.

Open Scope float_scope.

(** A mouse event: [inaxes] is the truth value of [event.inaxes];
    [xdata], [ydata] are read only when it holds. *)
Record event : Type := mk_event {
  inaxes : bool;
  xdata : float;
  ydata : float;
  button : Z
}.

(** What [aspect_ratio] reads of an Axes: the size of its position box, the
    size of the figure, and the two pairs of limits. *)
Record axes : Type := mk_axes {
  position_width : float;
  position_height : float;
  figwidth : float;
  figheight : float;
  xlim : float * float;
  ylim : float * float
}.

Definition aspect_ratio (ax : axes) : float :=
  let width := position_width ax * figwidth ax in
  let height := position_height ax * figheight ax in
  let '(xmin, xmax) := xlim ax in
  let '(ymin, ymax) := ylim ax in
  height / width / (ymax - ymin) * (xmax - xmin).

(** What can go wrong in a handler: an exception of the region, or the read
    of an attribute that was never assigned. *)
Inductive failure : Type :=
| Exception (e : exn)
| AttributeError.

(** The outcome of a handler: the tool after the call, also when it
    failed. *)
Inductive handled (S : Type) : Type :=
| Returned (s : S)
| Failed (f : failure) (s : S).

Arguments Returned {S} s.
Arguments Failed {S} f s.

Definition tool_of {S : Type} (h : handled S) : S :=
  match h with
  | Returned s => s
  | Failed _ s => s
  end.

(** The mouse events a canvas sends to the callbacks a tool connects. *)
Inductive signal : Type :=
| button_press_event (ev : event)
| motion_notify_event (ev : event)
| button_release_event (ev : event).

(** Handling the signals of a list in turn; a failure ends the run. *)
Fixpoint dispatch {S G : Type} (on : S -> G -> handled S)
         (sigs : list G) (s : S) : handled S :=
  match sigs with
  | [] => Returned s
  | sg :: sigs' =>
      match on s sg with
      | Returned s' => dispatch on sigs' s'
      | Failed f s' => Failed f s'
      end
  end.

End Mpl.

Module MplRectangularROI.

Open Scope float_scope.

(** The Rectangle patch: its corner as given, its size, its visibility. *)
Record patch : Type := mk_patch {
  xy : option float * option float;
  width : float;
  height : float;
  visible : bool
}.

Record t : Type := mk {
  roi : RectangularROI.t;
  rectangle : patch;
  draws : nat
}.

(** [_sync_patch]: hide the patch of an undefined region, else give it the
    corner and the size of the region and show it; then redraw.  A missing
    bound is a TypeError at the subtraction that reads it. *)
Definition sync_patch (s : t) : outcome t :=
  let r := roi s in
  let p := rectangle s in
  match RectangularROI.xmin r with
  | None =>
      Done (mk r (mk_patch (xy p) (width p) (height p) false) (S (draws s)))
  | Some x0 =>
      let p1 := mk_patch (Some x0, RectangularROI.ymin r)
                         (width p) (height p) (visible p) in
      match RectangularROI.xmax r with
      | None => Raised TypeError (mk r p1 (draws s))
      | Some x1 =>
          let p2 := mk_patch (xy p1) (x1 - x0) (height p1) (visible p1) in
          match RectangularROI.ymax r, RectangularROI.ymin r with
          | Some y1, Some y0 =>
              Done (mk r (mk_patch (xy p2) (width p2) (y1 - y0) true)
                       (S (draws s)))
          | _, _ => Raised TypeError (mk r p2 (draws s))
          end
      end
  end.

(** [__init__]: a new region, the patch [Rectangle((0., 0.), 1., 1.)], and
    a first [_sync_patch]. *)
Definition init : t :=
  state_of (sync_patch (mk RectangularROI.init
                           (mk_patch (Some 0, Some 0) 1 1 true) 0)).

Definition update_limits (s : t) (xmin ymin xmax ymax : float) : outcome t :=
  sync_patch (mk (RectangularROI.update_limits (roi s) xmin ymin xmax ymax)
                 (rectangle s) (draws s)).

Definition reset (s : t) : outcome t :=
  sync_patch (mk (RectangularROI.reset (roi s)) (rectangle s) (draws s)).

(** The calls that change an MplRectangularROI. *)
Inductive call : Type :=
| UpdateLimits (xmin ymin xmax ymax : float)
| Reset.

Definition exec (s : t) (c : call) : outcome t :=
  match c with
  | UpdateLimits a b c d => update_limits s a b c d
  | Reset => reset s
  end.

Fixpoint run (cs : list call) (s : t) : outcome t :=
  match cs with
  | [] => Done s
  | c :: cs' => and_then (exec s c) (run cs')
  end.

End MplRectangularROI.

Module MplCircularROI.

Open Scope float_scope.

(** The Ellipse patch. *)
Record patch : Type := mk_patch {
  center : option float * option float;
  width : float;
  height : float;
  visible : bool
}.

Record t : Type := mk {
  roi : CircularROI.t;
  circle : patch;
  draws : nat
}.

(** [_sync_patch], on the axes as they are at the call. *)
Definition sync_patch (ax : Mpl.axes) (s : t) : t :=
  let c := roi s in
  let p := circle s in
  if negb (CircularROI.defined c) then
    mk c (mk_patch (center p) (width p) (height p) false) (S (draws s))
  else
    mk c (mk_patch (CircularROI.xc c, CircularROI.yc c)
                   (2 * Np.value (CircularROI.radius c))
                   (2 * Np.value (CircularROI.radius c) / Mpl.aspect_ratio ax)
                   true)
       (S (draws s)).

(** [__init__], with the patch [Ellipse((0., 0.), width=0., height=0.)]. *)
Definition init (ax : Mpl.axes) : t :=
  sync_patch ax (mk CircularROI.init (mk_patch (Some 0, Some 0) 0 0 true) 0).

Definition set_center (ax : Mpl.axes) (s : t) (x y : float) : t :=
  sync_patch ax (mk (CircularROI.set_center (roi s) x y) (circle s) (draws s)).

Definition set_radius (ax : Mpl.axes) (s : t) (radius : Np.scalar) : t :=
  sync_patch ax (mk (CircularROI.set_radius (roi s) radius)
                    (circle s) (draws s)).

Definition reset (ax : Mpl.axes) (s : t) : t :=
  sync_patch ax (mk (CircularROI.reset (roi s)) (circle s) (draws s)).

End MplCircularROI.

Module MplPolygonalROI.

Open Scope float_scope.

(** The Polygon patch: the points of its outline. *)
Record patch : Type := mk_patch {
  xy : list (float * float);
  visible : bool
}.

Record t : Type := mk {
  roi : PolygonalROI.t;
  polygon : patch;
  draws : nat
}.

(** [_sync_patch]: the outline of a defined region is
    [zip(vx + [vx[0]], vy + [vy[0]])], the list of pairs that [zip] returns
    in Python 2: the vertices and the first one again. *)
Definition sync_patch (s : t) : outcome t :=
  let r := roi s in
  let p := polygon s in
  if negb (PolygonalROI.defined r) then
    Done (mk r (mk_patch (xy p) false) (S (draws s)))
  else
    match PolygonalROI.vx r, PolygonalROI.vy r with
    | x0 :: _, y0 :: _ =>
        Done (mk r (mk_patch (combine (PolygonalROI.vx r ++ [x0])
                                      (PolygonalROI.vy r ++ [y0])) true)
                 (S (draws s)))
    | _, _ => Raised IndexError s
    end.

(** [__init__], with the patch [Polygon(zip([0, 1], [0, 1]))]: a closed
    outline, to which matplotlib appends the first point. *)
Definition init : t :=
  state_of (sync_patch (mk PolygonalROI.init
                           (mk_patch [(0, 0); (1, 1); (0, 0)] true) 0)).

Definition add_point (s : t) (x y : float) : outcome t :=
  sync_patch (mk (PolygonalROI.add_point (roi s) x y) (polygon s) (draws s)).

Definition reset (s : t) : outcome t :=
  sync_patch (mk (PolygonalROI.reset (roi s)) (polygon s) (draws s)).

Definition replace_last_point (s : t) (x y : float) : outcome t :=
  match PolygonalROI.replace_last_point (roi s) x y with
  | Done r => sync_patch (mk r (polygon s) (draws s))
  | Raised e r => Raised e (mk r (polygon s) (draws s))
  end.

(** [remove_point] calls [PolygonalROI.reset(self, x, y, thresh=None)]:
    [reset] takes no such arguments, the call is a TypeError. *)
Definition remove_point (s : t) (x y : float) (thresh : option float)
  : outcome t :=
  Raised TypeError s.

(** The calls that change an MplPolygonalROI. *)
Inductive call : Type :=
| AddPoint (x y : float)
| ReplaceLastPoint (x y : float)
| RemovePoint (x y : float) (thresh : option float)
| Reset.

Definition exec (s : t) (c : call) : outcome t :=
  match c with
  | AddPoint x y => add_point s x y
  | ReplaceLastPoint x y => replace_last_point s x y
  | RemovePoint x y th => remove_point s x y th
  | Reset => reset s
  end.

End MplPolygonalROI.

Module MplBoxTool.

Import Mpl.
Open Scope float_scope.

(** The region with its patch, the two data arrays of the subset, the mask
    last assigned to the subset, the corner where the drag began ([_xi],
    [_yi], unassigned at first) and [_active]. *)
Record t : Type := mk {
  base : MplRectangularROI.t;
  data_x : list float;
  data_y : list float;
  mask : option (list bool);
  xi : option float;
  yi : option float;
  active : bool
}.

Definition init (x y : list float) : t :=
  mk MplRectangularROI.init x y None None None false.

Definition with_base (s : t) (o : outcome MplRectangularROI.t)
           (k : t -> handled t) : handled t :=
  match o with
  | Done b => k (mk b (data_x s) (data_y s) (mask s) (xi s) (yi s) (active s))
  | Raised e b =>
      Failed (Exception e)
             (mk b (data_x s) (data_y s) (mask s) (xi s) (yi s) (active s))
  end.

Definition start_selection (s : t) (ev : event) : handled t :=
  if negb (inaxes ev) then Returned s
  else
    with_base s (MplRectangularROI.reset (base s)) (fun s1 =>
    with_base s1 (MplRectangularROI.update_limits
                    (base s1) (xdata ev) (ydata ev) (xdata ev) (ydata ev))
              (fun s2 =>
    Returned (mk (base s2) (data_x s2) (data_y s2) (mask s2)
                 (Some (xdata ev)) (Some (ydata ev)) true))).

Definition update_selection (s : t) (ev : event) : handled t :=
  if negb (inaxes ev) then Returned s
  else if negb (active s) then Returned s
  else
    match xi s, yi s with
    | Some x0, Some y0 =>
        with_base s (MplRectangularROI.update_limits
                       (base s)
                       (Builtin.min2 (xdata ev) x0)
                       (Builtin.min2 (ydata ev) y0)
                       (Builtin.max2 (xdata ev) x0)
                       (Builtin.max2 (ydata ev) y0))
                  Returned
    | _, _ => Failed AttributeError s
    end.

Definition finalize_selection (s : t) (ev : event) : handled t :=
  if negb (inaxes ev) then Returned s
  else if negb (active s) then Returned s
  else
    match RectangularROI.contains (MplRectangularROI.roi (base s))
                                  (data_x s) (data_y s) with
    | Raise e => Failed (Exception e) s
    | Ok m =>
        let s1 := mk (base s) (data_x s) (data_y s) (Some m)
                     (xi s) (yi s) (active s) in
        with_base s1 (MplRectangularROI.reset (base s1)) (fun s2 =>
        Returned (mk (base s2) (data_x s2) (data_y s2) (mask s2)
                     (xi s2) (yi s2) false))
    end.

(** The three connections of [__init__]. *)
Definition on (s : t) (sg : signal) : handled t :=
  match sg with
  | button_press_event ev => start_selection s ev
  | motion_notify_event ev => update_selection s ev
  | button_release_event ev => finalize_selection s ev
  end.

End MplBoxTool.

Module MplCircleTool.

Import Mpl.
Open Scope float_scope.

Record t : Type := mk {
  base : MplCircularROI.t;
  data_x : list float;
  data_y : list float;
  mask : option (list bool);
  xi : option float;
  yi : option float;
  active : bool
}.

Definition init (ax : axes) (x y : list float) : t :=
  mk (MplCircularROI.init ax) x y None None None false.

Definition start_selection (ax : axes) (s : t) (ev : event) : handled t :=
  if negb (inaxes ev) then Returned s
  else
    let b1 := MplCircularROI.reset ax (base s) in
    let b2 := MplCircularROI.set_center ax b1 (xdata ev) (ydata ev) in
    let b3 := MplCircularROI.set_radius
                ax b2 (Np.mk_scalar Np.PyFloat 0) in
    Returned (mk b3 (data_x s) (data_y s) (mask s)
                 (Some (xdata ev)) (Some (ydata ev)) true).

Definition update_selection (ax : axes) (s : t) (ev : event) : handled t :=
  if negb (inaxes ev) then Returned s
  else if negb (active s) then Returned s
  else
    match xi s, yi s with
    | Some x0, Some y0 =>
        let dx := xdata ev - x0 in
        let dy := (ydata ev - y0) * aspect_ratio ax in
        Returned (mk (MplCircularROI.set_radius
                        ax (base s)
                        (Np.mk_scalar Np.Float64 (sqrt (dx * dx + dy * dy))))
                     (data_x s) (data_y s) (mask s) (xi s) (yi s) (active s))
    | _, _ => Failed AttributeError s
    end.

Section Power.

Variable pow2 : float -> float.

Definition finalize_selection (ax : axes) (s : t) (ev : event) : handled t :=
  if negb (inaxes ev) then Returned s
  else if negb (active s) then Returned s
  else
    match CircularROI.contains pow2 (MplCircularROI.roi (base s))
                               (data_x s) (data_y s) with
    | Raise e => Failed (Exception e) s
    | Ok m =>
        Returned (mk (MplCircularROI.reset ax (base s))
                     (data_x s) (data_y s) (Some m) (xi s) (yi s) false)
    end.

Definition on (ax : axes) (s : t) (sg : signal) : handled t :=
  match sg with
  | button_press_event ev => start_selection ax s ev
  | motion_notify_event ev => update_selection ax s ev
  | button_release_event ev => finalize_selection ax s ev
  end.

End Power.

End MplCircleTool.

Module MplPolygonTool.

Import Mpl.
Open Scope float_scope.

Record t : Type := mk {
  base : MplPolygonalROI.t;
  data_x : list float;
  data_y : list float;
  mask : option Np.ndarray;
  active : bool
}.

(** Assigning [self.vx = [0.]] and [self.vy = [0.]]: the patch is not
    synchronised. *)
Definition origin (b : MplPolygonalROI.t) : MplPolygonalROI.t :=
  MplPolygonalROI.mk (PolygonalROI.mk [0] [0])
                     (MplPolygonalROI.polygon b) (MplPolygonalROI.draws b).

Definition init (x y : list float) : t :=
  mk (origin MplPolygonalROI.init) x y None true.

Definition with_base (s : t) (o : outcome MplPolygonalROI.t)
           (k : t -> handled t) : handled t :=
  match o with
  | Done b => k (mk b (data_x s) (data_y s) (mask s) (active s))
  | Raised e b =>
      Failed (Exception e) (mk b (data_x s) (data_y s) (mask s) (active s))
  end.

Definition add_vertex (s : t) (ev : event) : handled t :=
  if negb (inaxes ev) then Returned s
  else if negb (Z.eqb (button ev) 1) then Returned s
  else
    with_base s (MplPolygonalROI.add_point (base s) (xdata ev) (ydata ev))
              (fun s1 =>
    Returned (mk (base s1) (data_x s1) (data_y s1) (mask s1) true)).

Definition update_selection (s : t) (ev : event) : handled t :=
  if negb (inaxes ev) then Returned s
  else if negb (active s) then Returned s
  else
    with_base s (MplPolygonalROI.replace_last_point
                   (base s) (xdata ev) (ydata ev))
              Returned.

Definition finalize_selection (s : t) (ev : event) : handled t :=
  if negb (inaxes ev) then Returned s
  else if negb (active s) then Returned s
  else if negb (Z.eqb (button ev) 3) then Returned s
  else
    match PolygonalROI.contains (MplPolygonalROI.roi (base s))
                                (data_x s) (data_y s) with
    | Raise e => Failed (Exception e) s
    | Ok m =>
        let s1 := mk (base s) (data_x s) (data_y s) (Some m) (active s) in
        with_base s1 (MplPolygonalROI.reset (base s1)) (fun s2 =>
        Returned (mk (origin (base s2)) (data_x s2) (data_y s2)
                     (mask s2) true))
    end.

(** A press runs the two callbacks connected to it, in the order of their
    connection; a motion runs [update_selection]; nothing is connected to
    the release. *)
Definition on (s : t) (sg : signal) : handled t :=
  match sg with
  | button_press_event ev =>
      match add_vertex s ev with
      | Returned s1 => finalize_selection s1 ev
      | Failed f s1 => Failed f s1
      end
  | motion_notify_event ev => update_selection s ev
  | button_release_event _ => Returned s
  end.

End MplPolygonTool.

Module MplLassoTool.

Import Mpl.
Open Scope float_scope.

Record t : Type := mk {
  base : MplPolygonalROI.t;
  data_x : list float;
  data_y : list float;
  mask : option Np.ndarray;
  active : bool
}.

Definition init (x y : list float) : t :=
  mk MplPolygonalROI.init x y None false.

Definition with_base (s : t) (o : outcome MplPolygonalROI.t)
           (k : t -> handled t) : handled t :=
  match o with
  | Done b => k (mk b (data_x s) (data_y s) (mask s) (active s))
  | Raised e b =>
      Failed (Exception e) (mk b (data_x s) (data_y s) (mask s) (active s))
  end.

Definition start_selection (s : t) (ev : event) : handled t :=
  if negb (inaxes ev) then Returned s
  else
    with_base s (MplPolygonalROI.reset (base s)) (fun s1 =>
    with_base s1 (MplPolygonalROI.add_point (base s1) (xdata ev) (ydata ev))
              (fun s2 =>
    Returned (mk (base s2) (data_x s2) (data_y s2) (mask s2) true))).

Definition update_selection (s : t) (ev : event) : handled t :=
  if negb (inaxes ev) then Returned s
  else if negb (active s) then Returned s
  else
    with_base s (MplPolygonalROI.add_point (base s) (xdata ev) (ydata ev))
              Returned.

(** [finalize_selection] tests [self._polygon is None], which never holds
    (the constructor binds the patch and nothing rebinds it), and not
    [event.inaxes]. *)
Definition finalize_selection (s : t) (ev : event) : handled t :=
  if negb (active s) then Returned s
  else
    match PolygonalROI.contains (MplPolygonalROI.roi (base s))
                                (data_x s) (data_y s) with
    | Raise e => Failed (Exception e) s
    | Ok m =>
        let s1 := mk (base s) (data_x s) (data_y s) (Some m) (active s) in
        with_base s1 (MplPolygonalROI.reset (base s1)) (fun s2 =>
        Returned (mk (base s2) (data_x s2) (data_y s2) (mask s2) false))
    end.

Definition on (s : t) (sg : signal) : handled t :=
  match sg with
  | button_press_event ev => start_selection s ev
  | motion_notify_event ev => update_selection s ev
  | button_release_event ev => finalize_selection s ev
  end.

End MplLassoTool.

(** ** What the tools are expected to keep *)

Module ToolSpec.

Import Mpl.
Open Scope float_scope.

(** An event inside the axes. *)
Definition at_point (x y : float) (b : Z) : event := mk_event true x y b.

(** The point of an event. *)
Definition point_of (ev : event) : float * float := (xdata ev, ydata ev).

(** The patch of a rectangle shows the region: hidden when no bound is set,
    else visible with the corner and the size of the region. *)
Definition rectangle_synced (s : MplRectangularROI.t) : Prop :=
  let r := MplRectangularROI.roi s in
  let p := MplRectangularROI.rectangle s in
  match RectangularROI.xmin r, RectangularROI.xmax r,
        RectangularROI.ymin r, RectangularROI.ymax r with
  | None, None, None, None => MplRectangularROI.visible p = false
  | Some x0, Some x1, Some y0, Some y1 =>
      MplRectangularROI.visible p = true
      /\ MplRectangularROI.xy p = (Some x0, Some y0)
      /\ MplRectangularROI.width p = x1 - x0
      /\ MplRectangularROI.height p = y1 - y0
  | _, _, _, _ => False
  end.

(** The patch of a polygon shows the region: hidden when there is no
    vertex, else visible with the closed outline, the vertices and the first
    one again. *)
Definition polygon_synced (s : MplPolygonalROI.t) : Prop :=
  let p := MplPolygonalROI.polygon s in
  match PolygonalROI.vertices (MplPolygonalROI.roi s) with
  | [] => MplPolygonalROI.visible p = false
  | v :: vs =>
      MplPolygonalROI.visible p = true
      /\ MplPolygonalROI.xy p = (v :: vs) ++ [v]
  end.

(** The box a drag from [(a, b)] to [(c, d)] spans. *)
Definition in_box (a b c d : float) (s : float * float) : bool :=
  Spec.in_rectangle (Builtin.min2 c a) (Builtin.max2 c a)
                    (Builtin.min2 d b) (Builtin.max2 d b) s.

(** What holds of a box tool between two events. *)
Definition box_invariant (s : MplBoxTool.t) : Prop :=
  let r := MplRectangularROI.roi (MplBoxTool.base s) in
  rectangle_synced (MplBoxTool.base s)
  /\ MplBoxTool.active s = RectangularROI.defined r
  /\ (MplBoxTool.active s = true ->
      (exists a, MplBoxTool.xi s = Some a)
      /\ (exists b, MplBoxTool.yi s = Some b))
  /\ (forall x0 x1 y0 y1,
         r = RectangularROI.mk (Some x0) (Some x1) (Some y0) (Some y1) ->
         (x1 <? x0) = false /\ (y1 <? y0) = false).

(** The radius a drag from [(a, b)] to [(c, d)] gives a circle, on the axes
    [ax]. *)
Definition drag_radius (ax : axes) (a b c d : float) : float :=
  let dx := c - a in
  let dy := (d - b) * aspect_ratio ax in
  sqrt (dx * dx + dy * dy).

(** What holds of a circle tool between two events. *)
Definition circle_invariant (s : MplCircleTool.t) : Prop :=
  let c := MplCircularROI.roi (MplCircleTool.base s) in
  MplCircleTool.active s = CircularROI.defined c
  /\ (MplCircleTool.active s = true ->
      (exists a, MplCircleTool.xi s = Some a)
      /\ (exists b, MplCircleTool.yi s = Some b)
      /\ (exists cy, CircularROI.yc c = Some cy))
  /\ (Np.value (CircularROI.radius c) <? 0) = false
  /\ (Np.kind_of (CircularROI.radius c) = Np.Float64
      \/ CircularROI.radius c = Np.mk_scalar Np.PyFloat 0)
  /\ MplCircularROI.visible (MplCircularROI.circle (MplCircleTool.base s)) =
     CircularROI.defined c.

(** What holds of a polygon tool between two events. *)
Definition polygon_tool_invariant (s : MplPolygonTool.t) : Prop :=
  let r := MplPolygonalROI.roi (MplPolygonTool.base s) in
  MplPolygonTool.active s = true
  /\ Spec.paired r
  /\ PolygonalROI.defined r = true.

(** What holds of a lasso tool between two events. *)
Definition lasso_invariant (s : MplLassoTool.t) : Prop :=
  let r := MplPolygonalROI.roi (MplLassoTool.base s) in
  Spec.paired r
  /\ MplLassoTool.active s = PolygonalROI.defined r
  /\ polygon_synced (MplLassoTool.base s).

End ToolSpec.

(** ** The exact values of binary64 numbers

    A finite binary64 number is an integer multiple of [2^-1074]; its exact
    value is kept as an integer, in units of [2^-bias], small enough for
    the halves and the sums the proofs on midpoints meet. *)

Module Exact.

Open Scope Z_scope.

Definition bias : Z := 1200.

(** The weight of exponent [e]. *)
Definition unit (e : Z) : Z := 2 ^ (e + bias).

(** The exact value of a number; an infinity and a NaN have none, and
    count as 0. *)
Definition value (f : spec_float) : Z :=
  match f with
  | S754_finite s m e => if s then - (Z.pos m * unit e) else Z.pos m * unit e
  | _ => 0
  end.





End Exact.

(** * Properties *)

Unset Implicit Arguments.

Section FloatOrderFacts.

Import FloatOrder.
Open Scope Z_scope.

Ltac cmp_cases :=
  repeat match goal with
    | s : bool |- _ => destruct s
    | |- context [Z.compare ?a ?b] => destruct (Z.compare_spec a b)
    | |- context [Pos.compare_cont Eq ?a ?b] =>
        change (Pos.compare_cont Eq a b) with (Pos.compare a b);
        destruct (Pos.compare_spec a b)
    end.

Ltac rank_solve :=
  unfold numbers, rank_lt, rank_eq, SFltb, SFleb, SFeqb, SFcompare;
  cbn [is_nanS rk1 rk2 rk3]; cmp_cases; cbn [CompOpp];
  split; intros; try discriminate; try (repeat split; (reflexivity || lia));
  try lia.

Lemma SFltb_rank (f g : spec_float) :
  SFltb f g = true <-> numbers f g /\ rank_lt f g.
Proof. destruct f, g; rank_solve. Qed.

Lemma SFleb_rank (f g : spec_float) :
  SFleb f g = true <-> numbers f g /\ (rank_lt f g \/ rank_eq f g).
Proof. destruct f, g; rank_solve. Qed.

Lemma SFeqb_rank (f g : spec_float) :
  SFeqb f g = true <-> numbers f g /\ rank_eq f g.
Proof. destruct f, g; rank_solve. Qed.

End FloatOrderFacts.

Section FloatFacts.

Import FloatOrder.
Open Scope float_scope.

Lemma ltb_rank (x y : float) :
  (x <? y) = true <->
  numbers (Prim2SF x) (Prim2SF y) /\ rank_lt (Prim2SF x) (Prim2SF y).
Proof. rewrite ltb_spec. apply SFltb_rank. Qed.

Lemma leb_rank (x y : float) :
  (x <=? y) = true <->
  numbers (Prim2SF x) (Prim2SF y) /\
  (rank_lt (Prim2SF x) (Prim2SF y) \/ rank_eq (Prim2SF x) (Prim2SF y)).
Proof. rewrite leb_spec. apply SFleb_rank. Qed.

Lemma eqb_rank (x y : float) :
  (x =? y) = true <->
  numbers (Prim2SF x) (Prim2SF y) /\ rank_eq (Prim2SF x) (Prim2SF y).
Proof. rewrite eqb_spec. apply SFeqb_rank. Qed.

Lemma ltb_irrefl (x : float) : (x <? x) = false.
Proof.
  apply not_true_iff_false. rewrite ltb_rank.
  unfold rank_lt. intros [_ H]. lia.
Qed.

Lemma ltb_trans (x y z : float) :
  (x <? y) = true -> (y <? z) = true -> (x <? z) = true.
Proof.
  rewrite !ltb_rank. unfold numbers, rank_lt.
  intros [[Hx Hy] H1] [[_ Hz] H2]. repeat split; trivial. lia.
Qed.


Lemma ltb_leb (x y : float) : (x <? y) = true -> (x <=? y) = true.
Proof. rewrite leb_rank, ltb_rank. tauto. Qed.

Lemma ltb_not_leb (x y : float) : (x <? y) = true -> (y <=? x) = false.
Proof.
  intros H. apply not_true_iff_false. revert H.
  rewrite leb_rank, ltb_rank. unfold rank_lt, rank_eq.
  intros [_ H1] [_ H2]. lia.
Qed.

Lemma eqb_ltb_r (x y z : float) :
  (x =? y) = true -> (z <? x) = (z <? y).
Proof.
  intros H. apply eq_true_iff_eq. revert H.
  rewrite eqb_rank, !ltb_rank. unfold numbers, rank_lt, rank_eq.
  intros [[Hx Hy] He]. split; intros [[Hz _] Hl]; (split; [tauto | lia]).
Qed.

Lemma eqb_ltb_l (x y z : float) :
  (x =? y) = true -> (x <? z) = (y <? z).
Proof.
  intros H. apply eq_true_iff_eq. revert H.
  rewrite eqb_rank, !ltb_rank. unfold numbers, rank_lt, rank_eq.
  intros [[Hx Hy] He]. split; intros [[_ Hz] Hl]; (split; [tauto | lia]).
Qed.


Lemma Prim2SF_zero : Prim2SF 0 = S754_zero false.
Proof. reflexivity. Qed.

(** [x == 0] holds of the two zeros only. *)
Lemma is_zero_spec (x : float) :
  is_zero x = true <-> exists s, Prim2SF x = S754_zero s.
Proof.
  unfold is_zero. change zero with 0%float.
  rewrite eqb_spec, Prim2SF_zero.
  destruct (Prim2SF x) as [s| s | |s m e]; cbn; split;
    try discriminate; try (intros [s' Hs]; discriminate); eauto;
    destruct s; discriminate.
Qed.

Lemma is_finite_spec (x : float) : is_finite x = finiteS (Prim2SF x).
Proof.
  unfold is_finite, is_nan, is_infinity.
  rewrite !eqb_spec, abs_spec.
  change (Prim2SF infinity) with (S754_infinity false).
  destruct (Prim2SF x) as [s| s | |s m e]; cbn; trivial;
    try (change (Pos.compare_cont Eq m m) with (Pos.compare m m);
         rewrite Z.compare_refl, Pos.compare_refl);
    destruct s; reflexivity.
Qed.

(** A square and a sum of squares are never below zero: their rank is not
    negative (a NaN has rank 0). *)
Lemma binary_round_aux_sign (m e : Z) (l : location) :
  (0 <= rk1 (binary_round_aux prec emax false m e l))%Z.
Proof.
  unfold binary_round_aux.
  destruct (shr_fexp prec emax m e l) as [mrs' e'].
  destruct (shr_fexp prec emax _ e' loc_Exact) as [mrs'' e''].
  destruct (shr_m mrs''); [cbn; lia | | cbn; lia].
  match goal with
  | |- context [if ?b then _ else _] => destruct b
  end; cbn; lia.
Qed.

Lemma SFmul_self_sign (f : spec_float) : (0 <= rk1 (SF64mul f f))%Z.
Proof.
  destruct f as [s| s | |s m e]; cbn [SF64mul SFmul]; unfold SF64mul, SFmul.
  - destruct s; cbn; lia.
  - destruct s; cbn; lia.
  - cbn; lia.
  - replace (xorb s s) with false by (destruct s; reflexivity).
    apply binary_round_aux_sign.
Qed.

Lemma SFadd_sign (f g : spec_float) :
  (0 <= rk1 f)%Z -> (0 <= rk1 g)%Z -> (0 <= rk1 (SF64add f g))%Z.
Proof.
  destruct f as [s| s | |s m e], g as [s'| s' | |s' m' e'];
    try destruct s; try destruct s'; cbn [rk1]; try lia; intros _ _;
    unfold SF64add, SFadd; cbn [rk1]; try lia.
  cbn [cond_Zopp]. unfold binary_normalize.
  cbn [Z.add]. unfold binary_round.
  destruct (shl_align _ _ _) as [mz ez].
  apply binary_round_aux_sign.
Qed.

Lemma sum_of_squares_not_below (a b z : float) :
  is_zero z = true -> (a * a + b * b <? z) = false.
Proof.
  intros Hz. apply is_zero_spec in Hz. destruct Hz as [s Hs].
  apply not_true_iff_false. rewrite ltb_rank.
  rewrite add_spec, !mul_spec, Hs.
  assert (H := SFadd_sign _ _ (SFmul_self_sign (Prim2SF a))
                          (SFmul_self_sign (Prim2SF b))).
  unfold rank_lt. intros [_ Hlt].
  destruct (SF64add _ _) as [u| u | |u m e];
    cbn in Hlt, H; try destruct u; cbn in Hlt, H; lia.
Qed.


Lemma is_zero_not_nan (a : float) : is_zero a = true -> is_nan a = false.
Proof.
  intros H. apply is_zero_spec in H. destruct H as [s Hs].
  unfold is_nan. rewrite eqb_spec, Hs. reflexivity.
Qed.

Lemma is_zero_not_infinity (a : float) :
  is_zero a = true -> is_infinity a = false.
Proof.
  intros H. apply is_zero_spec in H. destruct H as [s Hs].
  unfold is_infinity. rewrite eqb_spec, abs_spec, Hs. reflexivity.
Qed.

(** The opposite of a number is a NaN, an infinity or a zero when the
    number is, and has its magnitude. *)
Lemma abs_opp (a : float) : abs (- a) = abs a.
Proof.
  apply Prim2SF_inj. rewrite !abs_spec, opp_spec.
  now destruct (Prim2SF a).
Qed.

Lemma is_nan_opp (a : float) : is_nan (- a) = is_nan a.
Proof.
  unfold is_nan. rewrite !eqb_spec, opp_spec.
  destruct (Prim2SF a) as [s|s| |s m e]; cbn [SFopp]; trivial;
    try (destruct s; reflexivity).
  unfold SFeqb, SFcompare. cbn [negb].
  change (Pos.compare_cont Eq m m) with (Pos.compare m m).
  rewrite Z.compare_refl, Pos.compare_refl. now destruct s.
Qed.

Lemma is_infinity_opp (a : float) : is_infinity (- a) = is_infinity a.
Proof. unfold is_infinity. now rewrite abs_opp. Qed.

Lemma is_zero_opp (a : float) : is_zero (- a) = is_zero a.
Proof.
  unfold is_zero. rewrite !eqb_spec, opp_spec.
  change (Prim2SF zero) with (S754_zero false).
  destruct (Prim2SF a) as [s|s| |s m e]; cbn [SFopp]; trivial;
    now destruct s.
Qed.

(** Sums and products do not depend on the order of their operands. *)
Lemma SFmul_comm (f g : spec_float) : SF64mul f g = SF64mul g f.
Proof.
  unfold SF64mul, SFmul.
  destruct f as [s|s| |s m e], g as [s'|s'| |s' m' e']; trivial;
    try (now rewrite xorb_comm).
  now rewrite xorb_comm, Pos.mul_comm, Z.add_comm.
Qed.

Lemma SFadd_comm (f g : spec_float) : SF64add f g = SF64add g f.
Proof.
  unfold SF64add, SFadd.
  destruct f as [s|s| |s m e], g as [s'|s'| |s' m' e']; trivial;
    try (now destruct s, s').
  now rewrite Z.min_comm, Z.add_comm.
Qed.

Lemma mul_comm (x y : float) : x * y = y * x.
Proof. apply Prim2SF_inj. rewrite !mul_spec. apply SFmul_comm. Qed.

Lemma add_comm (x y : float) : x + y = y + x.
Proof. apply Prim2SF_inj. rewrite !add_spec. apply SFadd_comm. Qed.



End FloatFacts.

(** ** Rounding

    The sum and the half of binary64 numbers are roundings of the exact sum
    and of the exact half. *)

Section Rounding.

Import FloatOrder Exact.
Open Scope Z_scope.















































Lemma ltb_neq (x y : float) :
  (x <? y)%float = true -> (x =? y)%float = false.
Proof.
  intros H. apply not_true_iff_false. revert H.
  rewrite ltb_rank, eqb_rank. unfold rank_lt, rank_eq.
  intros [_ H1] [_ H2]. lia.
Qed.




End Rounding.


(** ** Lists *)

Section ListFacts.

Variables A B C D : Type.

Lemma combine_map_map (f : A -> C) (g : B -> D) (l : list A) (l' : list B) :
  combine (map f l) (map g l') =
  map (fun ab => (f (fst ab), g (snd ab))) (combine l l').
Proof.
  revert l'. induction l as [|a l IH]; intros [|b l']; cbn; trivial.
  now rewrite IH.
Qed.

Lemma broadcast_same_length (l : list A) (l' : list B) :
  length l = length l' -> Np.broadcast l l' = Ok (combine l l').
Proof.
  intros H. unfold Np.broadcast. now rewrite H, Nat.eqb_refl.
Qed.

Lemma broadcast_into_same_length (l : list A) (l' : list B) :
  length l = length l' -> Np.broadcast_into l l' = Ok (combine l l').
Proof.
  intros H. unfold Np.broadcast_into. now rewrite H, Nat.eqb_refl.
Qed.

Lemma combine_with_snd (f : A * B -> C) (l : list A) (l' : list B) :
  combine (map f (combine l l')) l' =
  map (fun ab => (f ab, snd ab)) (combine l l').
Proof.
  revert l'. induction l as [|a l IH]; intros [|b l']; cbn; trivial.
  now rewrite IH.
Qed.

Lemma combine_self (l : list A) : combine l l = map (fun a => (a, a)) l.
Proof. induction l as [|a l IH]; cbn; congruence. Qed.

End ListFacts.

Section ArrayFacts.

Variables A B : Type.

(** [&] on the tests of one array. *)
Lemma and_of_one_array (f g : A -> bool) (l : list A) :
  Np.and_ (map f l) (map g l) = Ok (map (fun a => f a && g a) l).
Proof.
  unfold Np.and_. rewrite broadcast_same_length by (now rewrite !length_map).
  cbn [bind]. rewrite combine_map_map, combine_self, !map_map. reflexivity.
Qed.

(** [&] on the tests of two arrays of the same length. *)
Lemma and_of_two_arrays (f : A -> bool) (g : B -> bool) (l : list A)
      (l' : list B) :
  length l = length l' ->
  Np.and_ (map f l) (map g l') =
  Ok (map (fun ab => f (fst ab) && g (snd ab)) (combine l l')).
Proof.
  intros H. unfold Np.and_.
  rewrite broadcast_same_length by (now rewrite !length_map).
  cbn [bind]. rewrite combine_map_map, map_map. reflexivity.
Qed.

(** [&] on a test of the pairs of two arrays and a test of the second. *)
Lemma and_of_pairs (f : A * B -> bool) (g : B -> bool) (l : list A)
      (l' : list B) :
  length l = length l' ->
  Np.and_ (map f (combine l l')) (map g l') =
  Ok (map (fun ab => f ab && g (snd ab)) (combine l l')).
Proof.
  intros H. unfold Np.and_.
  rewrite broadcast_same_length
    by (rewrite !length_map, length_combine; lia).
  cbn [bind].
  rewrite <- (map_id (map f (combine l l'))), combine_map_map.
  rewrite combine_with_snd, !map_map. reflexivity.
Qed.

End ArrayFacts.

(** ** RectangularROI and CircularROI *)

Section Rectangle.

Import RectangularROI.
Open Scope float_scope.

Lemma contains_defined (x0 x1 y0 y1 : float) (xs ys : list float) :
  length xs = length ys ->
  contains (mk (Some x0) (Some x1) (Some y0) (Some y1)) xs ys =
  Ok (map (Spec.in_rectangle x0 x1 y0 y1) (combine xs ys)).
Proof.
  intros H. unfold contains. cbn [xmin xmax ymin ymax Np.with_attribute bind].
  rewrite and_of_one_array. cbn [bind].
  rewrite and_of_two_arrays by assumption. cbn [bind].
  rewrite and_of_pairs by assumption. f_equal.
  apply map_ext. intros [px py]. reflexivity.
Qed.

Lemma on_edge_outside (x0 x1 y0 y1 px py : float) :
  Spec.on_edge x0 x1 y0 y1 px py ->
  Spec.in_rectangle x0 x1 y0 y1 (px, py) = false.
Proof.
  unfold Spec.on_edge, Spec.in_rectangle.
  intros [[[H|H] _]|[[H|H] _]].
  - rewrite (@eqb_ltb_r _ _ x0 H), ltb_irrefl. reflexivity.
  - rewrite (@eqb_ltb_l _ _ x1 H), ltb_irrefl.
    now rewrite andb_false_r.
  - rewrite (@eqb_ltb_r _ _ y0 H), ltb_irrefl.
    now rewrite andb_false_r.
  - rewrite (@eqb_ltb_l _ _ y1 H), ltb_irrefl.
    now rewrite andb_false_r.
Qed.

(** C2. For a rectangle with defined bounds and equally long sample
    arrays, [contains] answers at every index
    [(xs[i] > xmin) & (xs[i] < xmax) & (ys[i] > ymin) & (ys[i] < ymax)];
    when [xmin < xmax] and [ymin < ymax] a point exactly on one of the four
    edges is not contained; a point strictly between the bounds is
    contained.  In the rectangle from (0, 0) to (2, 2): (1, 1) is contained;
    (2, 1), (3, 1), (1, 2) and (0, 0) are not. *)
Theorem C2_rectangle_contains (x0 x1 y0 y1 : float) (xs ys : list float) :
  length xs = length ys ->
  contains (mk (Some x0) (Some x1) (Some y0) (Some y1)) xs ys =
  Ok (map (Spec.in_rectangle x0 x1 y0 y1) (combine xs ys))
  /\ (forall px py,
        (x0 <? x1) = true -> (y0 <? y1) = true ->
        Spec.on_edge x0 x1 y0 y1 px py ->
        contains (mk (Some x0) (Some x1) (Some y0) (Some y1)) [px] [py] =
        Ok [false])
  /\ (forall px py,
        Spec.strictly_inside x0 x1 y0 y1 px py ->
        contains (mk (Some x0) (Some x1) (Some y0) (Some y1)) [px] [py] =
        Ok [true])
  /\ contains (mk (Some 0) (Some 2) (Some 0) (Some 2))
              [1; 2; 3; 1; 0] [1; 1; 1; 2; 0] =
     Ok [true; false; false; false; false].
Proof.
  intros H. split; [|split; [|split]].
  - now apply contains_defined.
  - intros px py _ _ He. rewrite contains_defined by reflexivity.
    cbn [combine map]. now rewrite on_edge_outside.
  - intros px py (H1 & H2 & H3 & H4).
    rewrite contains_defined by reflexivity.
    cbn [combine map Spec.in_rectangle]. now rewrite H1, H2, H3, H4.
  - reflexivity.
Qed.

Lemma C2_rectangle_contains_witness :
  contains (mk (Some 0) (Some 2) (Some 0) (Some 2)) [1; 2; 3] [1; 1; 1] =
  Ok [true; false; false]
  /\ contains (mk (Some 0) (Some 2) (Some 0) (Some 2)) [2] [1] = Ok [false]
  /\ contains (mk (Some 0) (Some 2) (Some 0) (Some 2)) [0.5] [1.5] =
     Ok [true].
Proof.
  destruct (@C2_rectangle_contains 0 2 0 2 [1; 2; 3] [1; 1; 1] eq_refl)
    as (H1 & H2 & H3 & _).
  split; [exact H1|]. split.
  - apply H2; try reflexivity.
    left. split; [right; reflexivity | split; reflexivity].
  - apply H3. repeat split.
Defined.

End Rectangle.

Section RectangleMidpoint.

Import RectangularROI.
Open Scope float_scope.





End RectangleMidpoint.

Section ScalarPower.

Open Scope float_scope.

(** The power of a scalar, by its value and by whether it raises. *)
Lemma scalar_pow2_power2 (pow2 : float -> float) (k : Np.kind) (a : float) :
  Np.scalar_pow2 pow2 k a =
  if Spec.overflows pow2 k a then Raise OverflowError
  else Ok (Spec.power2 pow2 a).
Proof.
  unfold Np.scalar_pow2, Spec.overflows, Spec.power2, is_finite.
  destruct (is_zero a) eqn:Hz.
  - rewrite (is_zero_not_nan a Hz), (is_zero_not_infinity a Hz).
    now destruct k.
  - destruct (is_nan a); [now destruct k|].
    destruct (is_infinity a); [now destruct k|].
    cbn [orb negb andb].
    destruct (abs a =? 1); [now destruct k|]. destruct k; trivial.
Qed.

Lemma power2_zero (pow2 : float -> float) (a : float) :
  is_zero a = true -> Spec.power2 pow2 a = 0.
Proof. intros H. unfold Spec.power2. now rewrite H. Qed.

Lemma overflows_zero (pow2 : float -> float) (k : Np.kind) (a : float) :
  is_zero a = true -> Spec.overflows pow2 k a = false.
Proof.
  intros H. unfold Spec.overflows. rewrite (power2_zero pow2 a H).
  destruct k; trivial. apply andb_false_r.
Qed.

(** A power is the power of the opposite. *)
Lemma power2_opp (pow2 : float -> float) (a : float) :
  Spec.power2 pow2 (- a) = Spec.power2 pow2 a.
Proof.
  unfold Spec.power2, is_finite.
  now rewrite is_zero_opp, is_nan_opp, is_infinity_opp, abs_opp.
Qed.

Lemma overflows_opp (pow2 : float -> float) (k : Np.kind) (a : float) :
  Spec.overflows pow2 k (- a) = Spec.overflows pow2 k a.
Proof.
  unfold Spec.overflows, is_finite.
  now rewrite power2_opp, is_nan_opp, is_infinity_opp.
Qed.

Lemma scalar_pow2_opp (pow2 : float -> float) (k : Np.kind) (a : float) :
  Np.scalar_pow2 pow2 k (- a) = Np.scalar_pow2 pow2 k a.
Proof. now rewrite !scalar_pow2_power2, overflows_opp, power2_opp. Qed.

End ScalarPower.

Section Circle.

Import CircularROI.
Open Scope float_scope.

Variable pow2 : float -> float.

(** Before the radius is squared: the pairs of squared differences. *)
Lemma circle_contains_defined (k : Np.kind) (cx cy r : float)
      (xs ys : list float) :
  length xs = length ys ->
  contains pow2 (mk (Some cx) (Some cy) (Np.mk_scalar k r)) xs ys =
  if Spec.overflows pow2 k r then Raise OverflowError
  else Ok (map (Spec.in_circle cx cy (Spec.power2 pow2 r)) (combine xs ys)).
Proof.
  intros H. unfold contains.
  cbn [xc yc radius Np.kind_of Np.value Np.with_attribute bind].
  rewrite broadcast_same_length by (now rewrite !length_map).
  cbn [bind]. rewrite scalar_pow2_power2.
  destruct (Spec.overflows pow2 k r); [reflexivity|]. cbn [bind].
  rewrite !map_map, combine_map_map, map_map. f_equal.
  apply map_ext. intros [px py]. reflexivity.
Qed.

Lemma map_false_repeat (A : Type) (f : A -> bool) (l : list A) :
  (forall a, f a = false) -> map f l = repeat false (length l).
Proof.
  intros H. induction l as [|a l IH]; cbn; trivial. now rewrite H, IH.
Qed.

Lemma in_circle_zero (cx cy z : float) (s : float * float) :
  is_zero z = true -> Spec.in_circle cx cy z s = false.
Proof.
  intros Hz. destruct s as [px py]. unfold Spec.in_circle, Spec.sqdist_to.
  now apply sum_of_squares_not_below.
Qed.

(** C3, as amended. For a circle with a defined centre and equally long
    sample arrays, [contains] answers at every index
    [(xs[i] - xc)^2 + (ys[i] - yc)^2 < radius^2], the squared distance as
    the arrays compute it and [radius^2] as [radius ** 2] computes it on the
    scalar, unless that power is an OverflowError (a Python float whose
    square overflows), which [contains] raises.  The inequality is strict: a
    point whose computed squared distance equals the computed [radius^2] is
    not contained.  A circle of radius 0 contains no point.  With a power
    that rounds correctly, the circle of radius 5 about (0, 0) contains
    (3, 3) and (0, 0), and neither (3, 4), at distance 5, nor (4, 4). *)
Theorem C3_circle_contains (k : Np.kind) (cx cy r : float)
        (xs ys : list float) :
  length xs = length ys ->
  contains pow2 (mk (Some cx) (Some cy) (Np.mk_scalar k r)) xs ys =
  (if Spec.overflows pow2 k r then Raise OverflowError
   else Ok (map (Spec.in_circle cx cy (Spec.power2 pow2 r)) (combine xs ys)))
  /\ (forall px py,
        Spec.overflows pow2 k r = false ->
        (Spec.sqdist_to cx cy (px, py) =? Spec.power2 pow2 r) = true ->
        contains pow2 (mk (Some cx) (Some cy) (Np.mk_scalar k r)) [px] [py] =
        Ok [false])
  /\ (is_zero r = true ->
      contains pow2 (mk (Some cx) (Some cy) (Np.mk_scalar k r)) xs ys =
      Ok (repeat false (length xs)))
  /\ contains Np.rounded_pow2
              (mk (Some 0) (Some 0) (Np.mk_scalar Np.PyFloat 5))
              [3; 3; 4; 0] [3; 4; 4; 0] =
     Ok [true; false; false; true].
Proof.
  intros H. split; [|split; [|split]].
  - now apply circle_contains_defined.
  - intros px py Ho He. rewrite circle_contains_defined by reflexivity.
    rewrite Ho. cbn [combine map]. unfold Spec.in_circle.
    now rewrite (@eqb_ltb_l _ _ (Spec.power2 pow2 r) He), ltb_irrefl.
  - intros Hr. rewrite circle_contains_defined by assumption.
    rewrite (overflows_zero pow2 k r Hr), (power2_zero pow2 r Hr).
    rewrite map_false_repeat.
    + now rewrite length_combine, <- H, Nat.min_id.
    + intros s. now apply in_circle_zero.
  - reflexivity.
Qed.

End Circle.

Section CircleExamples.

Import CircularROI.
Open Scope float_scope.

Lemma C3_circle_contains_witness :
  contains Np.rounded_pow2 (mk (Some 0) (Some 0) (Np.mk_scalar Np.PyFloat 5))
           [3; 1] [4; 1] = Ok [false; true]
  /\ contains Np.rounded_pow2
              (mk (Some 0) (Some 0) (Np.mk_scalar Np.PyFloat 5)) [3] [4] =
     Ok [false]
  /\ contains Np.rounded_pow2
              (mk (Some 0) (Some 0) (Np.mk_scalar Np.Float64 0))
              [0; 1] [0; 1] = Ok [false; false].
Proof.
  destruct (@C3_circle_contains Np.rounded_pow2 Np.PyFloat
                                0 0 5 [3; 1] [4; 1] eq_refl)
    as (H1 & H2 & _).
  destruct (@C3_circle_contains Np.rounded_pow2 Np.Float64
                                0 0 0 [0; 1] [0; 1] eq_refl)
    as (_ & _ & H3 & _).
  split; [exact H1|]. split; [apply H2; reflexivity|].
  apply H3. reflexivity.
Defined.

(** C3, as stated, fails: 201326613, 268435484 and 335544355 are the sides
    of a right triangle (three times 67108871 times 3, 4 and 5), each a
    binary64 number, so the point (201326613, 268435484) is at distance
    exactly 335544355 from (0, 0).  Its two squares and their sum are
    rounded, the sum falls below the rounded square of the radius, and the
    circle of that radius contains the point. *)
Lemma C3_counterexample :
  (201326613 * 201326613 + 268435484 * 268435484 =
   335544355 * 335544355)%Z
  /\ Prim2SF 201326613 = binary_normalize prec emax 201326613 0 false
  /\ Prim2SF 268435484 = binary_normalize prec emax 268435484 0 false
  /\ Prim2SF 335544355 = binary_normalize prec emax 335544355 0 false
  /\ Np.scalar_pow2 Np.rounded_pow2 Np.PyFloat 335544355 =
     Ok 0x1.900005780004dp+56
  /\ Spec.sqdist_to 0 0 (201326613, 268435484) = 0x1.900005780004cp+56
  /\ contains Np.rounded_pow2
              (mk (Some 0) (Some 0) (Np.mk_scalar Np.PyFloat 335544355))
              [201326613] [268435484] = Ok [true].
Proof. repeat split. Qed.

End CircleExamples.


Section Reset.

(** C9. For each of the three shapes, resetting twice gives the state
    resetting once gives, and [defined()] is false after a reset. *)
Theorem C9_reset_idempotent :
  (forall r : RectangularROI.t,
      RectangularROI.reset (RectangularROI.reset r) = RectangularROI.reset r
      /\ RectangularROI.defined (RectangularROI.reset r) = false)
  /\ (forall c : CircularROI.t,
         CircularROI.reset (CircularROI.reset c) = CircularROI.reset c
         /\ CircularROI.defined (CircularROI.reset c) = false)
  /\ (forall p : PolygonalROI.t,
         PolygonalROI.reset (PolygonalROI.reset p) = PolygonalROI.reset p
         /\ PolygonalROI.defined (PolygonalROI.reset p) = false).
Proof. repeat split. Qed.

End Reset.

Section EmptyPolygon.

Import PolygonalROI.

Lemma mask_zeros (n : nat) :
  Np.mask (Np.IntArray (repeat 0%Z n)) = repeat false n.
Proof. induction n as [|n IH]; cbn in *; congruence. Qed.

(** C5. On a polygon without vertices [contains] raises nothing, whatever
    the two sample arrays are, and classifies every sample as outside: it
    returns the array of zeros of the shape of [x]. *)
Theorem C5_empty_polygon_contains (ys' xs ys : list float) :
  contains (mk [] ys') xs ys = Ok (Np.IntArray (repeat 0%Z (length xs)))
  /\ Np.mask (Np.IntArray (repeat 0%Z (length xs))) =
     repeat false (length xs).
Proof. split; [reflexivity | apply mask_zeros]. Qed.

End EmptyPolygon.

(** ** Python sequences *)

Section Sequences.

Variable A : Type.

Lemma index_last (n : nat) : Py.index (S n) (-1) = Some n.
Proof.
  unfold Py.index. cbn [Z.ltb Z.compare].
  replace (-1 + Z.of_nat (S n))%Z with (Z.of_nat n) by lia.
  replace (0 <=? Z.of_nat n)%Z with true by (symmetry; apply Z.leb_le; lia).
  replace (Z.of_nat n <? Z.of_nat (S n))%Z with true
    by (symmetry; apply Z.ltb_lt; lia).
  cbn. now rewrite Nat2Z.id.
Qed.

Lemma set_nth_last (l : list A) (a v : A) :
  Py.set_nth (l ++ [a]) (length l) v = l ++ [v].
Proof. induction l as [|b l IH]; cbn; congruence. Qed.

Lemma setitem_last (l : list A) (a v : A) :
  Py.setitem (l ++ [a]) (-1) v = Ok (l ++ [v]).
Proof.
  unfold Py.setitem. rewrite length_app, Nat.add_1_r, index_last.
  now rewrite set_nth_last.
Qed.






End Sequences.

(** ** Editing a polygon *)

Section PolygonEditing.

Import PolygonalROI.
Open Scope float_scope.

Lemma combine_fst_snd (A B : Type) (l : list (A * B)) :
  combine (map fst l) (map snd l) = l.
Proof. induction l as [|[a b] l IH]; cbn; congruence. Qed.

Lemma map_fst_combine (A B : Type) (l : list A) (l' : list B) :
  length l = length l' -> map fst (combine l l') = l.
Proof.
  revert l'. induction l as [|a l IH]; intros [|b l'] H; cbn in *;
    try discriminate; trivial.
  f_equal. apply IH. lia.
Qed.

Lemma map_snd_combine (A B : Type) (l : list A) (l' : list B) :
  length l = length l' -> map snd (combine l l') = l'.
Proof.
  revert l'. induction l as [|a l IH]; intros [|b l'] H; cbn in *;
    try discriminate; trivial.
  f_equal. apply IH. lia.
Qed.

(** The polygons with as many x as y coordinates are the polygons built from
    a list of vertices. *)
Lemma paired_of_vertices (p : t) :
  Spec.paired p <-> of_vertices (vertices p) = p.
Proof.
  destruct p as [xs ys]. unfold Spec.paired, of_vertices, vertices.
  cbn [vx vy]. split.
  - intros H. now rewrite map_fst_combine, map_snd_combine.
  - intros H. injection H as H1 H2.
    rewrite <- H1 at 1. rewrite <- H2 at 2. now rewrite !length_map.
Qed.

Lemma of_vertices_paired (vs : list Spec.vertex) :
  Spec.paired (of_vertices vs).
Proof. unfold Spec.paired. cbn. now rewrite !length_map. Qed.

Lemma replace_last_point_last (vs : list Spec.vertex) (v : Spec.vertex)
      (x y : float) :
  replace_last_point (of_vertices (vs ++ [v])) x y =
  Done (of_vertices (vs ++ [(x, y)])).
Proof.
  unfold replace_last_point, of_vertices. cbn [vx vy].
  rewrite !map_app. cbn [map fst snd].
  rewrite length_app, Nat.add_1_r. cbn [Nat.ltb Nat.leb].
  now rewrite !setitem_last.
Qed.

(** C7. [replace_last_point(x, y)] puts [(x, y)] in the place of the last
    vertex and leaves the vertices before it, hence their number, as they
    are; on the empty polygon it changes nothing and raises nothing; on
    [[(1, 1)]] with [(5, 5)] it gives [[(5, 5)]]. *)
Theorem C7_replace_last_point (vs : list Spec.vertex) (v : Spec.vertex)
        (x y : float) :
  replace_last_point (of_vertices (vs ++ [v])) x y =
  Done (of_vertices (vs ++ [(x, y)]))
  /\ length (vs ++ [(x, y)]) = length (vs ++ [v])
  /\ replace_last_point (of_vertices []) x y = Done (of_vertices [])
  /\ replace_last_point (of_vertices [(1, 1)]) 5 5 =
     Done (of_vertices [(5, 5)]).
Proof.
  split; [apply replace_last_point_last|].
  split; [now rewrite !length_app|].
  split; reflexivity.
Qed.

Variable pow2 : float -> float.













End PolygonEditing.

Section PolygonEditingExamples.

Import PolygonalROI.
Open Scope float_scope.



End PolygonEditingExamples.


(** ** The invariant of a polygon *)

Section PolygonInvariant.

Import PolygonalROI.

Variable pow2 : float -> float.

Lemma length_lookup (A : Type) (l : list A) (inds : list nat) :
  length (flat_map (lookup l) inds) =
  length (filter (fun i => i <? length l)%nat inds).
Proof.
  induction inds as [|i inds IH]; cbn [flat_map filter]; trivial.
  rewrite length_app, IH. unfold lookup.
  destruct (nth_error l i) as [a|] eqn:E.
  - assert (Hi : (i < length l)%nat)
      by (apply nth_error_Some; congruence).
    apply Nat.ltb_lt in Hi. now rewrite Hi.
  - apply nth_error_None in E.
    assert (Hi : (i <? length l)%nat = false) by (apply Nat.ltb_ge; lia).
    now rewrite Hi.
Qed.

(** The two comprehensions of [remove_point] keep as many items of two
    lists of the same length. *)
Lemma without_same_length (A : Type) (l l' : list A) (inds : list nat)
      (near : nat) :
  length l = length l' ->
  length (without l inds near) = length (without l' inds near).
Proof. intros H. unfold without. now rewrite !length_lookup, H. Qed.

Lemma remove_point_paired (k : Np.kind) (p : t) (x y : float)
      (th : option float) :
  Spec.paired p -> Spec.paired (state_of (remove_point pow2 k p x y th)).
Proof.
  intros Hp. unfold remove_point.
  destruct (vx p) as [|a l] eqn:Ev; [exact Hp|].
  destruct (dists pow2 k p x y) as [dist|e]; [|exact Hp].
  destruct (Py.min_key _ _) as [near|e]; [|exact Hp].
  destruct (too_far pow2 k _ th) as [[|]|e]; try exact Hp.
  cbn [state_of]. unfold Spec.paired. cbn [vx vy].
  rewrite <- Ev. now apply without_same_length.
Qed.

Lemma exec_paired (p : t) (c : call) :
  Spec.paired p -> Spec.paired (exec pow2 p c).
Proof.
  intros Hp. assert (Hv := proj1 (paired_of_vertices p) Hp).
  destruct c as [x y|x y|k x y th| |xs ys]; cbn [exec].
  - unfold Spec.paired, add_point in *. cbn [vx vy].
    rewrite !length_app. cbn [length]. lia.
  - rewrite <- Hv.
    destruct (vertices p) as [|v vs] eqn:E; [exact (of_vertices_paired [])|].
    destruct (@exists_last _ (v :: vs)) as (l & a & ->); [discriminate|].
    rewrite replace_last_point_last. apply of_vertices_paired.
  - now apply remove_point_paired.
  - reflexivity.
  - exact Hp.
Qed.

Lemma fold_exec_paired (cs : list call) (p : t) :
  Spec.paired p -> Spec.paired (fold_left (exec pow2) cs p).
Proof.
  revert p. induction cs as [|c cs IH]; intros p Hp; cbn [fold_left].
  - exact Hp.
  - apply IH. now apply exec_paired.
Qed.

(** C10. A new polygon has as many x as y coordinates, each call
    ([add_point], [replace_last_point], [remove_point], [reset], [contains])
    keeps it so, also when it raises, and so does every sequence of calls
    on a new polygon. *)
Theorem C10_polygon_coordinates_paired :
  Spec.paired init
  /\ (forall p c, Spec.paired p -> Spec.paired (exec pow2 p c))
  /\ (forall cs, Spec.paired (run pow2 cs)).
Proof.
  split; [reflexivity|]. split; [exact exec_paired|].
  intros cs. now apply fold_exec_paired.
Qed.

End PolygonInvariant.

(** ** The even-odd rule *)

Section EvenOdd.

Import PolygonalROI.
Open Scope float_scope.

Lemma nth_error_roll (A : Type) (l : list A) (i : nat) :
  (i < length l)%nat ->
  nth_error (Np.roll l) i = nth_error l (Spec.pred_index (length l) i).
Proof.
  intros H. unfold Np.roll.
  destruct i as [|k]; cbn [Spec.pred_index].
  - rewrite nth_error_app1 by (rewrite length_skipn; lia).
    rewrite nth_error_skipn. f_equal. lia.
  - rewrite nth_error_app2 by (rewrite length_skipn; lia).
    rewrite length_skipn, nth_error_firstn.
    replace (S k - (length l - (length l - 1)))%nat with k by lia.
    destruct (Nat.ltb_spec k (length l - 1)); [reflexivity | lia].
Qed.

Lemma combine_map_combine (A B C : Type) (f : A * B -> C) (l : list A)
      (l' : list B) :
  combine (map f (combine l l')) l' =
  map (fun ab => (f ab, snd ab)) (combine l l').
Proof.
  revert l'. induction l as [|a l IH]; intros [|b l']; cbn; trivial.
  now rewrite IH.
Qed.

Lemma map_combine_repeat (A B C : Type) (h : A * B -> C) (z : A)
      (l : list B) :
  map h (combine (repeat z (length l)) l) = map (fun b => h (z, b)) l.
Proof. induction l as [|b l IH]; cbn; congruence. Qed.

(** The intersection the code computes is the one of the line through the
    two ends of the edge. *)
Lemma x_cross_intersection (xi yi xj yj y : float) :
  x_cross xi yi xj yj y = Spec.x_intersection ((xi, yi), (xj, yj)) y.
Proof.
  unfold x_cross, Spec.x_intersection.
  now rewrite (mul_comm (xj - xi) (y - yi)), add_comm.
Qed.

Lemma crossing_crosses (xi yi xj yj x y : float) :
  crossing xi yi xj yj x y = Spec.crosses x y ((xi, yi), (xj, yj)).
Proof.
  unfold crossing, Spec.crosses, Np.gt. cbn [fst snd].
  now rewrite x_cross_intersection.
Qed.

(** One turn of the loop adds, in each cell, the crossing of edge [i]. *)
Lemma contains_step_edge (vs : list Spec.vertex) (xs ys : list float)
      (result : list Z) (i : nat) :
  (i < length vs)%nat -> length xs = length ys ->
  contains_step xs ys (map fst vs) (Np.roll (map fst vs))
                (map snd vs) (Np.roll (map snd vs)) result i =
  Ok (map (fun rs => Spec.tally (snd rs) [Spec.edge vs i] (fst rs))
          (combine result (combine xs ys))).
Proof.
  intros Hi Hl. unfold contains_step.
  assert (Hp : (Spec.pred_index (length vs) i < length vs)%nat)
    by (destruct i; cbn; lia).
  rewrite !nth_error_roll by (now rewrite length_map).
  rewrite !length_map, !nth_error_map.
  rewrite (nth_error_nth' vs (nan, nan) Hi), (nth_error_nth' vs (nan, nan) Hp).
  cbn [option_map].
  rewrite broadcast_into_same_length by assumption. cbn [bind]. f_equal.
  apply map_ext. intros [r [px py]].
  unfold Spec.tally, Spec.edge. cbn [fold_left fst snd].
  destruct (nth i vs (nan, nan)) as [xi yi].
  destruct (nth (Spec.pred_index (length vs) i) vs (nan, nan)) as [xj yj].
  cbn [fst snd]. now rewrite crossing_crosses.
Qed.

(** The loop over a range of vertex indices tallies their edges. *)
Lemma for_range_tally (vs : list Spec.vertex) (xs ys : list float) :
  length xs = length ys ->
  forall (range : list nat) (result : list Z),
    (forall i, In i range -> (i < length vs)%nat) ->
    length result = length xs ->
    for_range (contains_step xs ys (map fst vs) (Np.roll (map fst vs))
                             (map snd vs) (Np.roll (map snd vs)))
              range result =
    Ok (map (fun rs => Spec.tally (snd rs) (map (Spec.edge vs) range) (fst rs))
            (combine result (combine xs ys))).
Proof.
  intros Hl. induction range as [|i range IH]; intros result Hr Hlen.
  - cbn [for_range map]. f_equal.
    rewrite <- (map_fst_combine _ _ result (combine xs ys)) at 1
      by (rewrite length_combine; lia).
    apply map_ext. now intros [r s].
  - cbn [for_range].
    rewrite contains_step_edge by (trivial; apply Hr; now left).
    cbn [bind]. rewrite IH.
    + f_equal. rewrite combine_map_combine, map_map.
      apply map_ext. now intros [r s].
    + intros j Hj. apply Hr. now right.
    + rewrite length_map, length_combine, length_combine. lia.
Qed.

Lemma wrap64_parity (z : Z) : (Np.wrap64 z mod 2 = z mod 2)%Z.
Proof.
  unfold Np.wrap64.
  rewrite (Z.mod_eq (z + 2 ^ 63) (2 ^ 64)) by lia.
  replace (z + 2 ^ 63 - 2 ^ 64 * ((z + 2 ^ 63) / 2 ^ 64) - 2 ^ 63)%Z
    with (z + (- 2 ^ 63 * ((z + 2 ^ 63) / 2 ^ 64)) * 2)%Z by lia.
  apply Z_mod_plus_full.
Qed.

Lemma odd_cell_step (r : Z) (b : bool) :
  ((Np.wrap64 (r + Z.b2z b) mod 2 =? 1) = xorb (r mod 2 =? 1) b)%Z.
Proof.
  rewrite wrap64_parity.
  destruct b; cbn [Z.b2z].
  - rewrite <- Z.add_mod_idemp_l by lia.
    assert (H := Z.mod_pos_bound r 2 eq_refl).
    assert (Hc : (r mod 2 = 0 \/ r mod 2 = 1)%Z) by lia.
    destruct Hc as [-> | ->]; reflexivity.
  - now rewrite Z.add_0_r, xorb_false_r.
Qed.

(** The parity of a cell after the loop is the parity of the number of
    crossed edges, whatever wrapped around. *)
Lemma tally_parity (s : float * float) (es : list (Spec.vertex * Spec.vertex)) :
  forall r : Z,
    ((Spec.tally s es r mod 2 =? 1)%Z =
     xorb (r mod 2 =? 1)%Z
          (Nat.odd (length (filter (Spec.crosses (fst s) (snd s)) es)))).
Proof.
  induction es as [|e es IH]; intros r; cbn [Spec.tally fold_left filter].
  - now rewrite xorb_false_r.
  - fold (Spec.tally s es (Np.wrap64 (r + Z.b2z (Spec.crosses (fst s) (snd s) e)))).
    rewrite IH, odd_cell_step.
    destruct (Spec.crosses (fst s) (snd s) e); cbn [length].
    + rewrite Nat.odd_succ, <- Nat.negb_odd.
      destruct (r mod 2 =? 1)%Z, (Nat.odd _); reflexivity.
    + now rewrite xorb_false_r.
Qed.

Lemma contains_nonempty (p : t) (xs ys : list float) :
  vx p <> [] ->
  contains p xs ys =
  (r <- for_range (contains_step xs ys (vx p) (Np.roll (vx p))
                                 (vy p) (Np.roll (vy p)))
                  (seq 0 (length (vx p))) (repeat 0%Z (length xs)) ;;
   Ok (Np.BoolArray (map (fun z => Z.eqb (z mod 2) 1) r))).
Proof. unfold contains. destruct (vx p); [congruence | reflexivity]. Qed.

Lemma contains_even_odd (v : Spec.vertex) (vs : list Spec.vertex)
      (xs ys : list float) :
  length xs = length ys ->
  contains (of_vertices (v :: vs)) xs ys =
  Ok (Np.BoolArray (map (Spec.inside (v :: vs)) (combine xs ys))).
Proof.
  intros Hl. rewrite contains_nonempty by discriminate.
  unfold of_vertices. cbn [vx vy].
  rewrite for_range_tally; trivial.
  - cbn [bind]. do 2 f_equal. rewrite length_map.
    replace (length xs) with (length (combine xs ys))
      by (rewrite length_combine; lia).
    rewrite map_combine_repeat, map_map.
    apply map_ext. intros [x y]. cbn [fst snd].
    now rewrite tally_parity.
  - intros i Hi. apply in_seq in Hi. rewrite length_map in Hi. lia.
  - apply repeat_length.
Qed.



End EvenOdd.

(** ** Horizontal edges *)

Section HorizontalEdges.

Import PolygonalROI.
Open Scope float_scope.







End HorizontalEdges.

(** * Further properties of the regions *)

(** ** More on binary64 numbers *)

Section MoreFloatFacts.

Import FloatOrder.
Open Scope float_scope.

Lemma is_nan_spec (x : float) : is_nan x = is_nanS (Prim2SF x).
Proof.
  unfold is_nan. rewrite eqb_spec.
  destruct (Prim2SF x) as [s|s| |s m e]; cbn; trivial;
    try (destruct s; reflexivity).
  unfold SFeqb, SFcompare.
  change (Pos.compare_cont Eq m m) with (Pos.compare m m).
  rewrite Z.compare_refl, Pos.compare_refl. destruct s; reflexivity.
Qed.

Lemma is_nan_Prim2SF (x : float) : is_nan x = true -> Prim2SF x = S754_nan.
Proof.
  rewrite is_nan_spec. destruct (Prim2SF x); cbn; congruence.
Qed.

Lemma Prim2SF_is_nan (x : float) : Prim2SF x = S754_nan -> is_nan x = true.
Proof. intros H. now rewrite is_nan_spec, H. Qed.

(** No comparison with a NaN holds. *)
Lemma ltb_nan_l (x a : float) : is_nan x = true -> (x <? a) = false.
Proof.
  intros H. rewrite is_nan_spec in H.
  apply not_true_iff_false. rewrite ltb_rank. unfold numbers.
  intros [[Hx _] _]. congruence.
Qed.

Lemma ltb_nan_r (x a : float) : is_nan x = true -> (a <? x) = false.
Proof.
  intros H. rewrite is_nan_spec in H.
  apply not_true_iff_false. rewrite ltb_rank. unfold numbers.
  intros [[_ Hx] _]. congruence.
Qed.

(** A NaN operand gives a NaN. *)
Lemma sub_nan_l (x a : float) : is_nan x = true -> is_nan (x - a) = true.
Proof.
  intros H. apply Prim2SF_is_nan. now rewrite sub_spec, (is_nan_Prim2SF x H).
Qed.

Lemma mul_nan (x : float) : is_nan x = true -> is_nan (x * x) = true.
Proof.
  intros H. apply Prim2SF_is_nan. now rewrite mul_spec, (is_nan_Prim2SF x H).
Qed.

Lemma add_nan_l (x a : float) : is_nan x = true -> is_nan (x + a) = true.
Proof.
  intros H. apply Prim2SF_is_nan. now rewrite add_spec, (is_nan_Prim2SF x H).
Qed.

Lemma add_nan_r (x a : float) : is_nan x = true -> is_nan (a + x) = true.
Proof.
  intros H. apply Prim2SF_is_nan. rewrite add_spec, (is_nan_Prim2SF x H).
  now destruct (Prim2SF a).
Qed.

Lemma ltb_asym (a b : float) : (a <? b) = true -> (b <? a) = false.
Proof.
  intros H. apply not_true_iff_false. intros H'.
  apply ltb_leb in H'. now rewrite (ltb_not_leb _ _ H) in H'.
Qed.

Lemma leb_not_ltb (a b : float) : (a <=? b) = true -> (b <? a) = false.
Proof.
  intros H. apply not_true_iff_false. intros H'.
  now rewrite (ltb_not_leb _ _ H') in H.
Qed.

(** Nothing is above the infinity. *)
Lemma ltb_infinity (d : float) : (infinity <? d) = false.
Proof.
  apply not_true_iff_false. rewrite ltb_rank.
  change (Prim2SF infinity) with (S754_infinity false).
  unfold rank_lt. intros [_ H].
  destruct (Prim2SF d) as [s|s| |s m e]; cbn in H; try destruct s; lia.
Qed.

(** The difference of a finite number and itself is +0. *)
Lemma sub_diag (x : float) : is_finite x = true -> x - x = 0.
Proof.
  rewrite is_finite_spec. intros H.
  apply Prim2SF_inj. rewrite sub_spec, Prim2SF_zero.
  destruct (Prim2SF x) as [s|s| |s m e]; try discriminate.
  - now destruct s.
  - unfold SF64sub, SFsub. now rewrite Z.sub_diag.
Qed.

(** A square root is never below zero. *)
Lemma sqrt_not_below_zero (v : float) : (sqrt v <? 0) = false.
Proof.
  apply not_true_iff_false. rewrite ltb_rank, sqrt_spec, Prim2SF_zero.
  unfold rank_lt. intros [_ H].
  assert (Hs : (0 <= rk1 (SF64sqrt (Prim2SF v)))%Z).
  { destruct (Prim2SF v) as [s|s| |s m e]; unfold SF64sqrt, SFsqrt;
      try destruct s; cbn [rk1]; try lia.
    destruct (SFsqrt_core_binary prec emax (Z.pos m) e) as [[mz ez] lz].
    apply binary_round_aux_sign. }
  destruct (SF64sqrt (Prim2SF v)) as [s|s| |s m e]; cbn in H, Hs;
    try destruct s; lia.
Qed.

(** The smaller of two numbers is never above the larger one. *)
Lemma max2_not_below_min2 (a b : float) :
  (Builtin.max2 a b <? Builtin.min2 a b) = false.
Proof.
  unfold Builtin.max2, Builtin.min2, Np.gt.
  destruct (b <? a) eqn:Hba.
  - rewrite (ltb_asym _ _ Hba). now apply ltb_asym.
  - destruct (a <? b) eqn:Hab; [now apply ltb_asym | apply ltb_irrefl].
Qed.

End MoreFloatFacts.

(** ** Containment at the edges of the input space *)

Section ContainmentEdgeCases.

Open Scope float_scope.

Lemma broadcast_mismatch (A B : Type) (l : list A) (l' : list B) :
  length l <> length l' -> length l <> 1%nat -> length l' <> 1%nat ->
  Np.broadcast l l' = Raise ValueError.
Proof.
  intros H H1 H2. unfold Np.broadcast.
  destruct (Nat.eqb_spec (length l) (length l')) as [E|_]; [contradiction|].
  destruct l as [|a [|a' l]], l' as [|b [|b' l']]; cbn in *;
    trivial; contradiction.
Qed.

Lemma broadcast_single (A B : Type) (l : list A) (b : B) :
  Np.broadcast l [b] = Ok (map (fun a => (a, b)) l).
Proof.
  unfold Np.broadcast. destruct l as [|a [|a' l]]; reflexivity.
Qed.

Lemma broadcast_into_mismatch (A B : Type) (l : list A) (l' : list B) :
  length l' <> length l -> length l' <> 1%nat ->
  Np.broadcast_into l l' = Raise ValueError.
Proof.
  intros H H1. unfold Np.broadcast_into.
  destruct (Nat.eqb_spec (length l) (length l')) as [E|_]; [congruence|].
  destruct l' as [|b [|b' l']]; cbn in *; trivial; contradiction.
Qed.

Lemma in_rectangle_degenerate (x0 x1 y0 y1 : float) (s : float * float) :
  (x1 <=? x0) = true \/ (y1 <=? y0) = true ->
  Spec.in_rectangle x0 x1 y0 y1 s = false.
Proof.
  destruct s as [px py]. unfold Spec.in_rectangle, Np.gt. intros H.
  apply not_true_iff_false. intros Hin.
  apply andb_prop in Hin. destruct Hin as [Hin H4].
  apply andb_prop in Hin. destruct Hin as [Hin H3].
  apply andb_prop in Hin. destruct Hin as [H1 H2].
  destruct H as [H|H]; apply leb_not_ltb in H.
  - now rewrite (ltb_trans _ _ _ H1 H2) in H.
  - now rewrite (ltb_trans _ _ _ H3 H4) in H.
Qed.

(** X1. A rectangle whose upper bound is not above its lower bound, in x or
    in y, contains no sample. *)
Theorem X1_rectangle_degenerate (x0 x1 y0 y1 : float) (xs ys : list float) :
  length xs = length ys ->
  (x1 <=? x0) = true \/ (y1 <=? y0) = true ->
  RectangularROI.contains
    (RectangularROI.mk (Some x0) (Some x1) (Some y0) (Some y1)) xs ys =
  Ok (repeat false (length xs)).
Proof.
  intros Hl H. rewrite contains_defined by assumption.
  rewrite map_false_repeat.
  - now rewrite length_combine, <- Hl, Nat.min_id.
  - intros s. now apply in_rectangle_degenerate.
Qed.

Lemma X1_rectangle_degenerate_witness :
  RectangularROI.contains
    (RectangularROI.mk (Some 3) (Some 1) (Some 0) (Some 5)) [2; 0] [1; 1] =
  Ok (repeat false (length [2; 0])).
Proof.
  apply (X1_rectangle_degenerate 3 1 0 5 [2; 0] [1; 1]).
  - reflexivity.
  - left. reflexivity.
Defined.

(** X2. On a defined rectangle and on a defined circle, sample arrays of
    different lengths, neither of length 1, are a ValueError, on the circle
    before its radius is squared; a single y is paired with every x, on the
    circle once the square of its radius is there. *)
Theorem X2_rectangle_circle_shapes (pow2 : float -> float) (k : Np.kind)
        (x0 x1 y0 y1 cx cy r : float) (xs ys : list float) (py : float) :
  (length xs <> length ys -> length xs <> 1%nat -> length ys <> 1%nat ->
   RectangularROI.contains
     (RectangularROI.mk (Some x0) (Some x1) (Some y0) (Some y1)) xs ys =
   Raise ValueError
   /\ CircularROI.contains
        pow2 (CircularROI.mk (Some cx) (Some cy) (Np.mk_scalar k r)) xs ys =
      Raise ValueError)
  /\ RectangularROI.contains
       (RectangularROI.mk (Some x0) (Some x1) (Some y0) (Some y1)) xs [py] =
     Ok (map (fun px => Spec.in_rectangle x0 x1 y0 y1 (px, py)) xs)
  /\ CircularROI.contains
       pow2 (CircularROI.mk (Some cx) (Some cy) (Np.mk_scalar k r)) xs [py] =
     (if Spec.overflows pow2 k r then Raise OverflowError
      else Ok (map (fun px => Spec.in_circle cx cy (Spec.power2 pow2 r)
                                             (px, py)) xs)).
Proof.
  split; [|split].
  - intros H H1 H2. split.
    + unfold RectangularROI.contains.
      cbn [RectangularROI.xmin RectangularROI.xmax RectangularROI.ymin
           RectangularROI.ymax Np.with_attribute bind].
      rewrite and_of_one_array. cbn [bind]. unfold Np.and_ at 1.
      now rewrite broadcast_mismatch by (now rewrite ?length_map).
    + unfold CircularROI.contains.
      cbn [CircularROI.xc CircularROI.yc Np.with_attribute bind].
      now rewrite broadcast_mismatch by (now rewrite ?length_map).
  - unfold RectangularROI.contains.
    cbn [RectangularROI.xmin RectangularROI.xmax RectangularROI.ymin
         RectangularROI.ymax Np.with_attribute bind map].
    rewrite and_of_one_array. cbn [bind]. unfold Np.and_.
    rewrite broadcast_single. cbn [bind]. rewrite broadcast_single.
    cbn [bind]. rewrite !map_map. f_equal.
  - unfold CircularROI.contains.
    cbn [CircularROI.xc CircularROI.yc CircularROI.radius Np.kind_of
         Np.value Np.with_attribute bind map].
    rewrite broadcast_single. cbn [bind]. rewrite scalar_pow2_power2.
    destruct (Spec.overflows pow2 k r); [reflexivity|]. cbn [bind].
    now rewrite !map_map.
Qed.

Lemma X2_rectangle_circle_shapes_witness :
  RectangularROI.contains
    (RectangularROI.mk (Some 0) (Some 2) (Some 0) (Some 2))
    [1; 2; 3] [1; 1] = Raise ValueError
  /\ CircularROI.contains
       Np.rounded_pow2
       (CircularROI.mk (Some 0) (Some 0) (Np.mk_scalar Np.PyFloat 5))
       [1; 2; 3] [1; 1] = Raise ValueError.
Proof.
  destruct (X2_rectangle_circle_shapes Np.rounded_pow2 Np.PyFloat
                                       0 2 0 2 0 0 5 [1; 2; 3] [1; 1] 0)
    as (H & _).
  apply H; cbn; lia.
Defined.

Lemma contains_step_mismatch (vs : list Spec.vertex) (xs ys : list float)
      (result : list Z) (i : nat) :
  (i < length vs)%nat -> length ys <> length xs -> length ys <> 1%nat ->
  PolygonalROI.contains_step xs ys (map fst vs) (Np.roll (map fst vs))
                             (map snd vs) (Np.roll (map snd vs)) result i =
  Raise ValueError.
Proof.
  intros Hi H H1. unfold PolygonalROI.contains_step.
  assert (Hp : (Spec.pred_index (length vs) i < length vs)%nat)
    by (destruct i; cbn; lia).
  rewrite !nth_error_roll by (now rewrite length_map).
  rewrite !length_map, !nth_error_map.
  rewrite (nth_error_nth' vs (nan, nan) Hi), (nth_error_nth' vs (nan, nan) Hp).
  cbn [option_map]. now rewrite broadcast_into_mismatch.
Qed.

(** X3. With at least one vertex, [PolygonalROI.contains] stores its sums
    in an array of the shape of [x]: a [y] whose length is neither that of
    [x] nor 1 is a ValueError, also when [x] has length 1. *)
Theorem X3_polygon_shapes (v : Spec.vertex) (vs : list Spec.vertex)
        (xs ys : list float) :
  length ys <> length xs -> length ys <> 1%nat ->
  PolygonalROI.contains (PolygonalROI.of_vertices (v :: vs)) xs ys =
  Raise ValueError.
Proof.
  intros H H1. rewrite contains_nonempty by discriminate.
  unfold PolygonalROI.of_vertices. cbn [PolygonalROI.vx PolygonalROI.vy].
  rewrite length_map. cbn [length seq PolygonalROI.for_range].
  rewrite contains_step_mismatch by (cbn; lia || assumption).
  reflexivity.
Qed.

Lemma X3_polygon_shapes_witness :
  PolygonalROI.contains (PolygonalROI.of_vertices [(0, 0); (1, 0); (1, 1)])
                        [0.5] [0.5; 2; 3] =
  Raise ValueError.
Proof.
  apply (X3_polygon_shapes (0, 0) [(1, 0); (1, 1)] [0.5] [0.5; 2; 3]);
    cbn; lia.
Defined.

(** X4. The sign of the radius does not matter: a circle of radius [-r]
    contains what the circle of radius [r] contains, and raises when it
    does. *)
Theorem X4_circle_radius_sign (pow2 : float -> float) (c : CircularROI.t)
        (k : Np.kind) (r : float) (xs ys : list float) :
  CircularROI.contains
    pow2 (CircularROI.set_radius c (Np.mk_scalar k (- r))) xs ys =
  CircularROI.contains
    pow2 (CircularROI.set_radius c (Np.mk_scalar k r)) xs ys.
Proof.
  unfold CircularROI.contains, CircularROI.set_radius.
  cbn [CircularROI.xc CircularROI.yc CircularROI.radius Np.kind_of Np.value].
  now rewrite scalar_pow2_opp.
Qed.

(** X5. A circle with a finite centre contains its centre exactly when the
    square of its radius, as [radius ** 2] computes it, is above zero;
    where that power raises OverflowError, so does [contains]. *)
Theorem X5_circle_centre (pow2 : float -> float) (k : Np.kind)
        (cx cy r : float) :
  is_finite cx = true -> is_finite cy = true ->
  CircularROI.contains
    pow2 (CircularROI.mk (Some cx) (Some cy) (Np.mk_scalar k r)) [cx] [cy] =
  if Spec.overflows pow2 k r then Raise OverflowError
  else Ok [0 <? Spec.power2 pow2 r].
Proof.
  intros Hx Hy. rewrite circle_contains_defined by reflexivity.
  destruct (Spec.overflows pow2 k r); [reflexivity|].
  cbn [combine map]. unfold Spec.in_circle, Spec.sqdist_to.
  now rewrite (sub_diag cx Hx), (sub_diag cy Hy).
Qed.

Lemma X5_circle_centre_witness :
  CircularROI.contains
    Np.rounded_pow2
    (CircularROI.mk (Some 1) (Some 2) (Np.mk_scalar Np.Float64 0x1p-600))
    [1] [2] = Ok [false]
  /\ CircularROI.contains
       Np.rounded_pow2
       (CircularROI.mk (Some 1) (Some 2) (Np.mk_scalar Np.PyFloat 0x1p+600))
       [1] [2] = Raise OverflowError
  /\ CircularROI.contains
       Np.rounded_pow2
       (CircularROI.mk (Some 1) (Some 2) (Np.mk_scalar Np.Float64 0x1p+600))
       [1] [2] = Ok [true].
Proof.
  split; [|split].
  - apply (X5_circle_centre Np.rounded_pow2 Np.Float64 1 2 0x1p-600);
      reflexivity.
  - apply (X5_circle_centre Np.rounded_pow2 Np.PyFloat 1 2 0x1p+600);
      reflexivity.
  - apply (X5_circle_centre Np.rounded_pow2 Np.Float64 1 2 0x1p+600);
      reflexivity.
Defined.

End ContainmentEdgeCases.

(** ** Samples that are not numbers, and the smallest polygon *)

Section NanSamples.

Open Scope float_scope.

Lemma in_rectangle_nan (x0 x1 y0 y1 x y : float) :
  is_nan x = true \/ is_nan y = true ->
  Spec.in_rectangle x0 x1 y0 y1 (x, y) = false.
Proof.
  unfold Spec.in_rectangle. intros [H|H].
  - now rewrite (ltb_nan_r x x0 H).
  - rewrite (ltb_nan_r y y0 H). now rewrite andb_false_r.
Qed.

Lemma in_circle_nan (cx cy r2 x y : float) :
  is_nan x = true \/ is_nan y = true ->
  Spec.in_circle cx cy r2 (x, y) = false.
Proof.
  unfold Spec.in_circle, Spec.sqdist_to. intros [H|H]; apply ltb_nan_l.
  - now apply add_nan_l, mul_nan, sub_nan_l.
  - now apply add_nan_r, mul_nan, sub_nan_l.
Qed.

Lemma crosses_nan (x y : float) (e : Spec.vertex * Spec.vertex) :
  is_nan x = true \/ is_nan y = true -> Spec.crosses x y e = false.
Proof.
  destruct e as [[xi yi] [xj yj]]. unfold Spec.crosses, Np.gt. intros [H|H].
  - rewrite (ltb_nan_l x _ H). apply andb_false_r.
  - now rewrite !(ltb_nan_l y _ H).
Qed.

Lemma filter_none (A : Type) (f : A -> bool) (l : list A) :
  (forall a, f a = false) -> filter f l = [].
Proof.
  intros H. induction l as [|a l IH]; cbn; trivial. now rewrite H.
Qed.

Lemma inside_nan (vs : list Spec.vertex) (x y : float) :
  is_nan x = true \/ is_nan y = true -> Spec.inside vs (x, y) = false.
Proof.
  intros H. unfold Spec.inside. rewrite filter_none; trivial.
  intros e. now apply crosses_nan.
Qed.

(** X6. A sample with a NaN coordinate is in no region: not in a defined
    rectangle, not in a defined circle, not in a polygon.  The rectangle and
    the polygon answer without raising; the circle raises only where the
    square of its radius is an OverflowError. *)
Theorem X6_nan_sample_outside (pow2 : float -> float) (k : Np.kind)
        (x0 x1 y0 y1 cx cy r : float)
        (vs : list Spec.vertex) (x y : float) :
  is_nan x = true \/ is_nan y = true ->
  RectangularROI.contains
    (RectangularROI.mk (Some x0) (Some x1) (Some y0) (Some y1)) [x] [y] =
  Ok [false]
  /\ CircularROI.contains
       pow2 (CircularROI.mk (Some cx) (Some cy) (Np.mk_scalar k r)) [x] [y] =
     (if Spec.overflows pow2 k r then Raise OverflowError else Ok [false])
  /\ exists a,
      PolygonalROI.contains (PolygonalROI.of_vertices vs) [x] [y] = Ok a
      /\ Np.mask a = [false].
Proof.
  intros H. split; [|split].
  - rewrite contains_defined by reflexivity. cbn [combine map].
    now rewrite in_rectangle_nan.
  - rewrite circle_contains_defined by reflexivity. cbn [combine map].
    now rewrite in_circle_nan.
  - destruct vs as [|v vs].
    + exists (Np.IntArray [0%Z]). split; reflexivity.
    + exists (Np.BoolArray [false]). split; [|reflexivity].
      rewrite contains_even_odd by reflexivity. cbn [combine map].
      now rewrite inside_nan.
Qed.

Lemma X6_nan_sample_outside_witness :
  RectangularROI.contains
    (RectangularROI.mk (Some 0) (Some 1) (Some 0) (Some 1)) [nan] [0.5] =
  Ok [false]
  /\ CircularROI.contains
       Np.rounded_pow2
       (CircularROI.mk (Some 0) (Some 0) (Np.mk_scalar Np.PyFloat 1))
       [nan] [0.5] = Ok [false]
  /\ exists a,
      PolygonalROI.contains (PolygonalROI.of_vertices unit_square_vertices)
                            [nan] [0.5] = Ok a
      /\ Np.mask a = [false].
Proof.
  apply (X6_nan_sample_outside Np.rounded_pow2 Np.PyFloat
                               0 1 0 1 0 0 1 unit_square_vertices nan 0.5).
  left. reflexivity.
Defined.

(** X7. A polygon with a single vertex contains no sample: its only edge
    joins the vertex to itself. *)
Theorem X7_single_vertex_polygon (v : Spec.vertex) (xs ys : list float) :
  length xs = length ys ->
  PolygonalROI.contains (PolygonalROI.of_vertices [v]) xs ys =
  Ok (Np.BoolArray (repeat false (length xs))).
Proof.
  intros Hl. rewrite contains_even_odd by assumption. do 2 f_equal.
  rewrite map_false_repeat.
  - now rewrite length_combine, <- Hl, Nat.min_id.
  - intros [x y]. destruct v as [a b]. unfold Spec.inside. cbn.
    unfold Spec.crosses. now rewrite xorb_nilpotent.
Qed.

Lemma X7_single_vertex_polygon_witness :
  PolygonalROI.contains (PolygonalROI.of_vertices [(0, 0)]) [0; 1] [0; 1] =
  Ok (Np.BoolArray (repeat false (length [0; 1]))).
Proof. apply (X7_single_vertex_polygon (0, 0) [0; 1] [0; 1]). reflexivity. Defined.

End NanSamples.

(** ** More on editing a polygon *)

Section MorePolygonEditing.

Import PolygonalROI.
Open Scope float_scope.

Lemma replace_after_add (p : t) (a b x y : float) :
  replace_last_point (add_point p a b) x y = Done (add_point p x y).
Proof.
  unfold replace_last_point, add_point. cbn [vx vy].
  rewrite length_app, Nat.add_1_r. cbn [Nat.ltb Nat.leb].
  now rewrite !setitem_last.
Qed.

(** X8. Replacing the last point after adding one is adding the
    replacement: [add_point(a, b)] then [replace_last_point(x, y)] leaves
    the polygon [add_point(x, y)] alone would, and does not fail. *)
Theorem X8_add_then_replace (p : t) (a b x y : float) :
  replace_last_point (add_point p a b) x y = Done (add_point p x y).
Proof.
  unfold replace_last_point, add_point. cbn [vx vy].
  rewrite length_app, Nat.add_1_r. cbn [Nat.ltb Nat.leb].
  now rewrite !setitem_last.
Qed.

(** X9. Of the threshold of [remove_point] only the square counts: [-t]
    acts as [t]; and an infinite threshold acts as no threshold. *)
Theorem X9_remove_point_threshold (pow2 : float -> float) (k : Np.kind)
        (p : t) (x y th : float) :
  remove_point pow2 k p x y (Some (- th)) =
  remove_point pow2 k p x y (Some th)
  /\ remove_point pow2 k p x y (Some infinity) =
     remove_point pow2 k p x y None.
Proof.
  unfold remove_point. destruct (vx p) as [|a l]; [now split|].
  destruct (dists pow2 k p x y) as [dist|e]; [|now split].
  destruct (Py.min_key _ _) as [near|e]; [|now split].
  split.
  - cbn [too_far]. now rewrite scalar_pow2_opp.
  - cbn [too_far].
    change (Np.scalar_pow2 pow2 k infinity) with (@Ok float infinity).
    cbn [bind]. unfold Np.gt. now rewrite ltb_infinity.
Qed.

End MorePolygonEditing.

(** ** The first vertex is any vertex *)

Section VertexRotation.

Import PolygonalROI.
Open Scope float_scope.

Lemma roll_last (A : Type) (l : list A) (v : A) : Np.roll (l ++ [v]) = v :: l.
Proof.
  unfold Np.roll. rewrite length_app, Nat.add_1_r.
  replace (S (length l) - 1)%nat with (length l) by lia.
  rewrite skipn_app, firstn_app, skipn_all, firstn_all, Nat.sub_diag.
  cbn. now rewrite app_nil_r.
Qed.

Lemma edge_rotated (v : Spec.vertex) (l : list Spec.vertex) (j : nat) :
  (j < length l)%nat -> Spec.edge (l ++ [v]) j = Spec.edge (v :: l) (S j).
Proof.
  intros Hj. unfold Spec.edge. rewrite length_app, Nat.add_1_r.
  cbn [length Spec.pred_index nth].
  rewrite app_nth1 by assumption. f_equal.
  destruct j as [|k]; cbn [Spec.pred_index nth].
  - replace (S (length l) - 1)%nat with (length l) by lia.
    apply nth_middle.
  - apply app_nth1. lia.
Qed.

Lemma edge_rotated_last (v : Spec.vertex) (l : list Spec.vertex) :
  Spec.edge (l ++ [v]) (length l) = Spec.edge (v :: l) 0.
Proof.
  unfold Spec.edge. rewrite length_app, Nat.add_1_r, nth_middle.
  cbn [length Spec.pred_index nth]. f_equal.
  replace (S (length l) - 1)%nat with (length l) by lia.
  destruct l as [|a l]; [reflexivity|].
  cbn [length Spec.pred_index].
  change ((a :: l) ++ [v]) with (a :: (l ++ [v])).
  cbn [nth]. destruct (length l) as [|k] eqn:E.
  - apply length_zero_iff_nil in E. now subst l.
  - change (nth (S k) (a :: l ++ [v]) (nan, nan))
      with (nth k (l ++ [v]) (nan, nan)).
    change (nth (S k) (a :: l) (nan, nan)) with (nth k l (nan, nan)).
    apply app_nth1. lia.
Qed.

(** Moving the first vertex to the end moves the first edge to the end. *)
Lemma edges_rotated (v : Spec.vertex) (l : list Spec.vertex) :
  Spec.edges (l ++ [v]) =
  map (Spec.edge (v :: l)) (seq 1 (length l)) ++ [Spec.edge (v :: l) 0].
Proof.
  unfold Spec.edges. rewrite length_app, Nat.add_1_r, seq_S, map_app.
  cbn [map Nat.add]. rewrite edge_rotated_last. f_equal.
  rewrite <- seq_shift, map_map. apply map_ext_in.
  intros j Hj. apply in_seq in Hj. apply edge_rotated. lia.
Qed.

Lemma inside_rotated (v : Spec.vertex) (l : list Spec.vertex)
      (s : float * float) :
  Spec.inside (l ++ [v]) s = Spec.inside (v :: l) s.
Proof.
  destruct s as [x y]. unfold Spec.inside. rewrite edges_rotated.
  unfold Spec.edges. cbn [length seq map].
  rewrite filter_app, length_app. cbn [filter].
  destruct (Spec.crosses x y (Spec.edge (v :: l) 0)); cbn [length].
  - now rewrite Nat.add_1_r.
  - now rewrite Nat.add_0_r.
Qed.

Lemma contains_rolled (vs : list Spec.vertex) (xs ys : list float) :
  length xs = length ys ->
  contains (of_vertices (Np.roll vs)) xs ys = contains (of_vertices vs) xs ys.
Proof.
  intros Hl. destruct vs as [|a vs]; [reflexivity|].
  destruct (@exists_last _ (a :: vs)) as (l & v & E); [discriminate|].
  rewrite E, roll_last. rewrite contains_even_odd by assumption.
  destruct l as [|b l].
  - cbn [app]. now rewrite contains_even_odd.
  - change ((b :: l) ++ [v]) with (b :: (l ++ [v])).
    rewrite contains_even_odd by assumption. do 2 f_equal.
    apply map_ext. intros s. symmetry.
    exact (inside_rotated v (b :: l) s).
Qed.

(** X10. Which vertex comes first does not matter: on equally long sample
    arrays [contains] answers the same for a vertex list and for the list
    rotated by any number of places. *)
Theorem X10_polygon_rotation (k : nat) (vs : list Spec.vertex)
        (xs ys : list float) :
  length xs = length ys ->
  contains (of_vertices (Nat.iter k (@Np.roll Spec.vertex) vs)) xs ys =
  contains (of_vertices vs) xs ys.
Proof.
  intros Hl. induction k as [|k IH]; [reflexivity|].
  cbn [Nat.iter nat_rect]. now rewrite contains_rolled.
Qed.

Lemma X10_polygon_rotation_witness :
  contains (of_vertices (Nat.iter 3 (@Np.roll Spec.vertex)
                                  unit_square_vertices)) [0.5] [0.5] =
  contains (of_vertices unit_square_vertices) [0.5] [0.5].
Proof.
  apply (X10_polygon_rotation 3 unit_square_vertices [0.5] [0.5]).
  reflexivity.
Defined.

End VertexRotation.

(** * The rendering subclasses *)

Section RectanglePatch.

Import MplRectangularROI.
Open Scope float_scope.

Lemma update_limits_done (s : t) (a b c d : float) :
  update_limits s a b c d =
  Done (mk (RectangularROI.mk (Some a) (Some c) (Some b) (Some d))
           (mk_patch (Some a, Some b) (c - a) (d - b) true)
           (S (draws s))).
Proof. reflexivity. Qed.

Lemma reset_done (s : t) :
  reset s =
  Done (mk (RectangularROI.mk None None None None)
           (mk_patch (xy (rectangle s)) (width (rectangle s))
                     (height (rectangle s)) false)
           (S (draws s))).
Proof. reflexivity. Qed.

Lemma exec_synced (s : t) (c : call) :
  exists s', exec s c = Done s'
             /\ ToolSpec.rectangle_synced s' /\ draws s' = S (draws s).
Proof.
  destruct c as [a b c d|]; cbn [exec].
  - rewrite update_limits_done. eexists. split; [reflexivity|].
    split; [|reflexivity]. cbn. auto.
  - rewrite reset_done. eexists. split; [reflexivity|].
    split; reflexivity.
Qed.

Lemma run_synced (cs : list call) :
  forall s, ToolSpec.rectangle_synced s ->
            exists s', run cs s = Done s'
                       /\ ToolSpec.rectangle_synced s'
                       /\ draws s' = (draws s + length cs)%nat.
Proof.
  induction cs as [|c cs IH]; intros s Hs; cbn [run length].
  - exists s. rewrite Nat.add_0_r. auto.
  - destruct (exec_synced s c) as (s1 & E & H1 & D1).
    rewrite E. cbn [and_then].
    destruct (IH s1 H1) as (s' & E' & H' & D').
    exists s'. split; [assumption|]. split; [assumption|]. lia.
Qed.

(** X11. Whatever the calls of [update_limits] and [reset] on a new
    MplRectangularROI, none raises, the canvas is redrawn once for the
    construction and once per call, and the patch shows the region: hidden
    when it is undefined, else visible at [(xmin, ymin)] with the width
    [xmax - xmin] and the height [ymax - ymin]. *)
Theorem X11_rectangle_patch_synced (cs : list call) :
  exists s, run cs init = Done s
            /\ ToolSpec.rectangle_synced s
            /\ draws s = S (length cs).
Proof.
  destruct (run_synced cs init) as (s & E & H & D); [reflexivity|].
  exists s. auto.
Qed.

End RectanglePatch.

Section PolygonPatch.

Import MplPolygonalROI.
Open Scope float_scope.

Lemma combine_fst_snd_app (A B : Type) (l : list (A * B)) (a : A) (b : B) :
  combine (map fst l ++ [a]) (map snd l ++ [b]) = l ++ [(a, b)].
Proof. induction l as [|[a' b'] l IH]; cbn; congruence. Qed.

Lemma sync_patch_vertices (vs : list Spec.vertex) (p : patch) (d : nat) :
  exists s', sync_patch (mk (PolygonalROI.of_vertices vs) p d) = Done s'
             /\ roi s' = PolygonalROI.of_vertices vs
             /\ ToolSpec.polygon_synced s'
             /\ draws s' = S d.
Proof.
  destruct vs as [|[a b] vs].
  - eexists. split; [reflexivity|]. repeat split.
  - eexists. split; [reflexivity|]. split; [reflexivity|].
    split; [|reflexivity].
    unfold ToolSpec.polygon_synced. cbn [roi polygon visible xy].
    unfold PolygonalROI.vertices, PolygonalROI.of_vertices.
    cbn [PolygonalROI.vx PolygonalROI.vy].
    rewrite combine_fst_snd. split; [reflexivity|].
    change (a :: map fst vs) with (map fst ((a, b) :: vs)).
    change (b :: map snd vs) with (map snd ((a, b) :: vs)).
    apply combine_fst_snd_app.
Qed.

Lemma add_point_vertices (vs : list Spec.vertex) (x y : float) :
  PolygonalROI.add_point (PolygonalROI.of_vertices vs) x y =
  PolygonalROI.of_vertices (vs ++ [(x, y)]).
Proof.
  unfold PolygonalROI.add_point, PolygonalROI.of_vertices. cbn.
  now rewrite !map_app.
Qed.

(** X12. On an MplPolygonalROI with as many x as y coordinates,
    [add_point], [replace_last_point] and [reset] do not raise, keep the
    coordinates paired and leave the patch showing the region: hidden
    without vertices, else visible with the closed outline, the vertices
    followed by the first one.  [remove_point] raises a TypeError and changes
    nothing. *)
Theorem X12_polygon_patch_synced (s : t) (c : call) :
  Spec.paired (roi s) ->
  match exec s c with
  | Done s' =>
      Spec.paired (roi s') /\ ToolSpec.polygon_synced s'
      /\ draws s' = S (draws s)
      /\ (forall x y th, c <> RemovePoint x y th)
  | Raised e s' =>
      e = TypeError /\ s' = s /\ exists x y th, c = RemovePoint x y th
  end.
Proof.
  intros Hp. destruct s as [r p d]. cbn [roi draws] in *.
  apply paired_of_vertices in Hp. rewrite <- Hp.
  set (vs := PolygonalROI.vertices r). clearbody vs. clear Hp r.
  destruct c as [x y|x y|x y th|]; cbn [exec].
  - unfold add_point. cbn [roi polygon draws]. rewrite add_point_vertices.
    destruct (sync_patch_vertices (vs ++ [(x, y)]) p d) as (s' & E & R & H & D).
    rewrite E. rewrite R. split; [apply of_vertices_paired|].
    split; [assumption|]. split; [assumption|]. discriminate.
  - unfold replace_last_point. cbn [roi polygon draws].
    destruct vs as [|v vs].
    + change (PolygonalROI.replace_last_point (PolygonalROI.of_vertices []) x y)
        with (Done (PolygonalROI.of_vertices [])).
      destruct (sync_patch_vertices [] p d) as (s' & E & R & H & D).
      rewrite E, R. split; [apply of_vertices_paired|].
      split; [assumption|]. split; [assumption|]. discriminate.
    + destruct (@exists_last _ (v :: vs)) as (l & a & E0); [discriminate|].
      rewrite E0, replace_last_point_last.
      destruct (sync_patch_vertices (l ++ [(x, y)]) p d)
        as (s' & E & R & H & D).
      rewrite E, R. split; [apply of_vertices_paired|].
      split; [assumption|]. split; [assumption|]. discriminate.
  - split; [reflexivity|]. split; [reflexivity|]. eauto.
  - unfold reset. cbn [roi polygon draws].
    change (PolygonalROI.reset (PolygonalROI.of_vertices vs))
      with (PolygonalROI.of_vertices []).
    destruct (sync_patch_vertices [] p d) as (s' & E & R & H & D).
    rewrite E, R. split; [apply of_vertices_paired|].
    split; [assumption|]. split; [assumption|]. discriminate.
Qed.

Lemma X12_polygon_patch_synced_witness :
  match exec init (AddPoint 1 2) with
  | Done s' =>
      Spec.paired (roi s') /\ ToolSpec.polygon_synced s'
      /\ draws s' = S (draws init)
      /\ (forall x y th, AddPoint 1 2 <> RemovePoint x y th)
  | Raised e s' =>
      e = TypeError /\ s' = init
      /\ exists x y th, AddPoint 1 2 = RemovePoint x y th
  end.
Proof. apply (X12_polygon_patch_synced init (AddPoint 1 2)). reflexivity. Defined.

End PolygonPatch.

(** * The selection tools *)

(** ** MplBoxTool *)

Section BoxTool.

Import Mpl MplBoxTool.
Open Scope float_scope.

Lemma start_in_axes (s : t) (ev : event) :
  inaxes ev = true ->
  start_selection s ev =
  Returned
    (mk (MplRectangularROI.mk
           (RectangularROI.mk (Some (xdata ev)) (Some (xdata ev))
                              (Some (ydata ev)) (Some (ydata ev)))
           (MplRectangularROI.mk_patch
              (Some (xdata ev), Some (ydata ev))
              (xdata ev - xdata ev) (ydata ev - ydata ev) true)
           (S (S (MplRectangularROI.draws (base s)))))
        (data_x s) (data_y s) (mask s)
        (Some (xdata ev)) (Some (ydata ev)) true).
Proof. intros H. unfold start_selection. rewrite H. reflexivity. Qed.

Lemma update_in_axes (s : t) (ev : event) (a b : float) :
  inaxes ev = true -> active s = true -> xi s = Some a -> yi s = Some b ->
  update_selection s ev =
  Returned
    (mk (MplRectangularROI.mk
           (RectangularROI.mk (Some (Builtin.min2 (xdata ev) a))
                              (Some (Builtin.max2 (xdata ev) a))
                              (Some (Builtin.min2 (ydata ev) b))
                              (Some (Builtin.max2 (ydata ev) b)))
           (MplRectangularROI.mk_patch
              (Some (Builtin.min2 (xdata ev) a),
               Some (Builtin.min2 (ydata ev) b))
              (Builtin.max2 (xdata ev) a - Builtin.min2 (xdata ev) a)
              (Builtin.max2 (ydata ev) b - Builtin.min2 (ydata ev) b) true)
           (S (MplRectangularROI.draws (base s))))
        (data_x s) (data_y s) (mask s) (xi s) (yi s) (active s)).
Proof.
  intros H Ha Hx Hy. destruct s as [bs dx dy m x0 y0 act].
  cbn [active xi yi] in Ha, Hx, Hy. subst.
  unfold update_selection. rewrite H. reflexivity.
Qed.

Lemma finalize_in_axes (s : t) (ev : event) (x0 x1 y0 y1 : float) :
  inaxes ev = true -> active s = true ->
  MplRectangularROI.roi (base s) =
  RectangularROI.mk (Some x0) (Some x1) (Some y0) (Some y1) ->
  length (data_x s) = length (data_y s) ->
  finalize_selection s ev =
  Returned
    (mk (MplRectangularROI.mk
           (RectangularROI.mk None None None None)
           (MplRectangularROI.mk_patch
              (MplRectangularROI.xy (MplRectangularROI.rectangle (base s)))
              (MplRectangularROI.width (MplRectangularROI.rectangle (base s)))
              (MplRectangularROI.height (MplRectangularROI.rectangle (base s)))
              false)
           (S (MplRectangularROI.draws (base s))))
        (data_x s) (data_y s)
        (Some (map (Spec.in_rectangle x0 x1 y0 y1)
                   (combine (data_x s) (data_y s))))
        (xi s) (yi s) false).
Proof.
  intros H Ha Hr Hl. destruct s as [bs dx dy m xi0 yi0 act].
  cbn [active base data_x data_y] in *. subst act.
  unfold finalize_selection. cbn [active base data_x data_y].
  rewrite H, Hr. cbn [negb].
  rewrite contains_defined by assumption. reflexivity.
Qed.

Lemma synced_bounds (b : MplRectangularROI.t) :
  ToolSpec.rectangle_synced b ->
  RectangularROI.defined (MplRectangularROI.roi b) = true ->
  exists x0 x1 y0 y1,
    MplRectangularROI.roi b =
    RectangularROI.mk (Some x0) (Some x1) (Some y0) (Some y1).
Proof.
  unfold ToolSpec.rectangle_synced, RectangularROI.defined.
  destruct (MplRectangularROI.roi b) as [[x0|] [x1|] [y0|] [y1|]];
    cbn; intros Hs Hd; try contradiction; try discriminate.
  now exists x0, x1, y0, y1.
Qed.

Lemma on_invariant (s : t) (sg : signal) :
  ToolSpec.box_invariant s ->
  length (data_x s) = length (data_y s) ->
  exists s', on s sg = Returned s'
             /\ ToolSpec.box_invariant s'
             /\ data_x s' = data_x s /\ data_y s' = data_y s.
Proof.
  intros (Hs & Ha & Hxy & Hb) Hl.
  assert (Hkeep : exists s', Returned s = Returned s'
                             /\ ToolSpec.box_invariant s'
                             /\ data_x s' = data_x s /\ data_y s' = data_y s).
  { exists s. split; [reflexivity|]. split; [|split; reflexivity].
    exact (conj Hs (conj Ha (conj Hxy Hb))). }
  destruct sg as [ev|ev|ev]; cbn [on].
  - destruct (inaxes ev) eqn:Hin.
    + rewrite start_in_axes by assumption. eexists. split; [reflexivity|].
      split; [|split; reflexivity].
      unfold ToolSpec.box_invariant.
      cbn [base active xi yi MplRectangularROI.roi].
      split; [unfold ToolSpec.rectangle_synced; cbn; repeat split|].
      split; [reflexivity|].
      split; [intros _; split; eexists; reflexivity|].
      intros x0 x1 y0 y1 E. injection E as <- <- <- <-.
      split; apply ltb_irrefl.
    + unfold start_selection. now rewrite Hin.
  - destruct (inaxes ev) eqn:Hin;
      [|unfold update_selection; now rewrite Hin].
    destruct (active s) eqn:Hact;
      [|unfold update_selection; now rewrite Hin, Hact].
    destruct (Hxy eq_refl) as [[a Hx] [b Hy]].
    rewrite (update_in_axes s ev a b) by assumption.
    eexists. split; [reflexivity|]. split; [|split; reflexivity].
    unfold ToolSpec.box_invariant.
    cbn [base active xi yi MplRectangularROI.roi].
    split; [unfold ToolSpec.rectangle_synced; cbn; repeat split|].
    split; [now rewrite Hact|].
    split; [intros _; rewrite Hx, Hy; eauto|].
    intros x0 x1 y0 y1 E. injection E as <- <- <- <-.
    split; apply max2_not_below_min2.
  - destruct (inaxes ev) eqn:Hin;
      [|unfold finalize_selection; now rewrite Hin].
    destruct (active s) eqn:Hact;
      [|unfold finalize_selection; now rewrite Hin, Hact].
    destruct (synced_bounds (base s) Hs (eq_sym Ha))
      as (x0 & x1 & y0 & y1 & Hr).
    rewrite (finalize_in_axes s ev x0 x1 y0 y1) by assumption.
    eexists. split; [reflexivity|]. split; [|split; reflexivity].
    unfold ToolSpec.box_invariant.
    cbn [base active xi yi MplRectangularROI.roi].
    split; [reflexivity|]. split; [reflexivity|].
    split; [discriminate|]. intros ? ? ? ? E. discriminate.
Qed.

Lemma dispatch_invariant (sigs : list signal) :
  forall s, ToolSpec.box_invariant s ->
            length (data_x s) = length (data_y s) ->
            exists s', dispatch on sigs s = Returned s'
                       /\ ToolSpec.box_invariant s'.
Proof.
  induction sigs as [|sg sigs IH]; intros s Hs Hl; cbn [dispatch].
  - now exists s.
  - destruct (on_invariant s sg Hs Hl) as (s1 & E & H1 & Dx & Dy).
    rewrite E. apply IH; [assumption|]. now rewrite Dx, Dy.
Qed.

(** X13. On data arrays of equal length, whatever presses, motions and
    releases reach a new box tool, no handler fails ([_xi] and [_yi] are
    assigned before they are read, the bounds are set before they are
    compared), and after each of them: a selection is active exactly when
    the rectangle is defined, the patch shows the rectangle, and the bounds
    are never inverted ([xmax < xmin] and [ymax < ymin] are false). *)
Theorem X13_box_tool_invariant (x y : list float) (sigs : list signal) :
  length x = length y ->
  exists s, dispatch on sigs (init x y) = Returned s
            /\ ToolSpec.box_invariant s.
Proof.
  intros Hl. apply dispatch_invariant; [|exact Hl].
  split; [reflexivity|]. split; [reflexivity|].
  split; [discriminate|]. intros ? ? ? ? E. discriminate.
Qed.

Lemma X13_box_tool_invariant_witness :
  exists s,
    dispatch on [button_press_event (ToolSpec.at_point 2 2 1);
                 motion_notify_event (ToolSpec.at_point 0 3 1)]
             (init [1; 5] [2.5; 2.5]) = Returned s
    /\ ToolSpec.box_invariant s.
Proof.
  apply (X13_box_tool_invariant [1; 5] [2.5; 2.5]). reflexivity.
Defined.

Lemma box_tool_drag_state (s : t) (a b c d : float) (k1 k2 : Z)
      (ev : event) :
  length (data_x s) = length (data_y s) ->
  inaxes ev = true ->
  exists s',
    dispatch on [button_press_event (ToolSpec.at_point a b k1);
                 motion_notify_event (ToolSpec.at_point c d k2);
                 button_release_event ev] s = Returned s'
    /\ mask s' = Some (map (ToolSpec.in_box a b c d)
                           (combine (data_x s) (data_y s))).
Proof.
  intros Hl Hin. cbn [dispatch on].
  rewrite start_in_axes by reflexivity.
  rewrite (update_in_axes _ _ a b) by reflexivity.
  erewrite finalize_in_axes; [|assumption|reflexivity|reflexivity|exact Hl].
  eexists. split; reflexivity.
Qed.

(** X14. A drag selects the samples strictly inside the box it spans: from
    any state of the tool with data arrays of equal length, a press at
    [(a, b)], a motion to [(c, d)] and a release, all inside the axes,
    assign the subset the mask of the rectangle between [min] and [max] of
    the two corners, and leave the tool inactive, the rectangle undefined
    and its patch hidden. *)
Theorem X14_box_tool_drag (s : t) (a b c d : float) (k1 k2 : Z)
        (ev : event) :
  length (data_x s) = length (data_y s) ->
  inaxes ev = true ->
  exists s',
    dispatch on [button_press_event (ToolSpec.at_point a b k1);
                 motion_notify_event (ToolSpec.at_point c d k2);
                 button_release_event ev] s = Returned s'
    /\ mask s' = Some (map (ToolSpec.in_box a b c d)
                           (combine (data_x s) (data_y s)))
    /\ active s' = false
    /\ RectangularROI.defined (MplRectangularROI.roi (base s')) = false
    /\ MplRectangularROI.visible (MplRectangularROI.rectangle (base s')) =
       false.
Proof.
  intros Hl Hin. cbn [dispatch on].
  rewrite start_in_axes by reflexivity.
  rewrite (update_in_axes _ _ a b) by reflexivity.
  erewrite finalize_in_axes; [|assumption|reflexivity|reflexivity|exact Hl].
  eexists. split; [reflexivity|]. repeat split.
Qed.

Lemma X14_box_tool_drag_witness :
  exists s',
    dispatch on [button_press_event (ToolSpec.at_point 2 2 1);
                 motion_notify_event (ToolSpec.at_point 0 3 1);
                 button_release_event (ToolSpec.at_point 0 3 1)]
             (init [1; 5] [2.5; 2.5]) = Returned s'
    /\ mask s' = Some (map (ToolSpec.in_box 2 2 0 3)
                           (combine (data_x (init [1; 5] [2.5; 2.5]))
                                    (data_y (init [1; 5] [2.5; 2.5]))))
    /\ active s' = false
    /\ RectangularROI.defined (MplRectangularROI.roi (base s')) = false
    /\ MplRectangularROI.visible (MplRectangularROI.rectangle (base s')) =
       false.
Proof.
  apply (X14_box_tool_drag (init [1; 5] [2.5; 2.5]) 2 2 0 3 1 1
                           (ToolSpec.at_point 0 3 1)); reflexivity.
Defined.

Lemma in_rectangle_point (x y : float) (s : float * float) :
  Spec.in_rectangle x x y y s = false.
Proof.
  destruct s as [px py]. unfold Spec.in_rectangle, Np.gt.
  destruct (x <? px) eqn:H; [|reflexivity].
  now rewrite (ltb_asym _ _ H).
Qed.

(** X15. A click selects nothing: a press and a release inside the axes,
    with no motion between them, assign the subset a mask that is false
    everywhere. *)
Theorem X15_box_tool_click (s : t) (a b : float) (k : Z) (ev : event) :
  length (data_x s) = length (data_y s) ->
  inaxes ev = true ->
  exists s',
    dispatch on [button_press_event (ToolSpec.at_point a b k);
                 button_release_event ev] s = Returned s'
    /\ mask s' = Some (repeat false (length (data_x s))).
Proof.
  intros Hl Hin. cbn [dispatch on].
  rewrite start_in_axes by reflexivity.
  erewrite finalize_in_axes; [|assumption|reflexivity|reflexivity|exact Hl].
  eexists. split; [reflexivity|]. cbn [mask data_x data_y]. f_equal.
  rewrite map_false_repeat.
  - now rewrite length_combine, <- Hl, Nat.min_id.
  - intros p. apply in_rectangle_point.
Qed.

Lemma X15_box_tool_click_witness :
  exists s',
    dispatch on [button_press_event (ToolSpec.at_point 2 2 1);
                 button_release_event (ToolSpec.at_point 2 2 1)]
             (init [1; 2] [2; 2]) = Returned s'
    /\ mask s' = Some (repeat false (length (data_x (init [1; 2] [2; 2])))).
Proof.
  apply (X15_box_tool_click (init [1; 2] [2; 2]) 2 2 1
                            (ToolSpec.at_point 2 2 1)); reflexivity.
Defined.

End BoxTool.

Section BoxToolDirection.

Import Mpl MplBoxTool FloatOrder.
Open Scope float_scope.

Lemma eqb_of_not_ltb (a c : float) :
  is_nan a = false -> is_nan c = false ->
  (a <? c) = false -> (c <? a) = false -> (c =? a) = true.
Proof.
  rewrite !is_nan_spec. intros Ha Hc Hac Hca.
  apply not_true_iff_false in Hac, Hca. rewrite ltb_rank in Hac, Hca.
  apply eqb_rank. unfold numbers, rank_lt, rank_eq in *.
  split; [tauto|].
  assert (H1 : ~ ((rk1 (Prim2SF a) < rk1 (Prim2SF c))%Z \/
                  rk1 (Prim2SF a) = rk1 (Prim2SF c) /\
                  ((rk2 (Prim2SF a) < rk2 (Prim2SF c))%Z \/
                   rk2 (Prim2SF a) = rk2 (Prim2SF c) /\
                   (rk3 (Prim2SF a) < rk3 (Prim2SF c))%Z))) by tauto.
  assert (H2 : ~ ((rk1 (Prim2SF c) < rk1 (Prim2SF a))%Z \/
                  rk1 (Prim2SF c) = rk1 (Prim2SF a) /\
                  ((rk2 (Prim2SF c) < rk2 (Prim2SF a))%Z \/
                   rk2 (Prim2SF c) = rk2 (Prim2SF a) /\
                   (rk3 (Prim2SF c) < rk3 (Prim2SF a))%Z))) by tauto.
  lia.
Qed.

Lemma min2_swap (a c z : float) :
  is_nan a = false -> is_nan c = false ->
  (Builtin.min2 c a <? z) = (Builtin.min2 a c <? z).
Proof.
  intros Ha Hc. unfold Builtin.min2.
  destruct (a <? c) eqn:Hac.
  - now rewrite (ltb_asym _ _ Hac).
  - destruct (c <? a) eqn:Hca; [reflexivity|].
    apply eqb_ltb_l. now apply eqb_of_not_ltb.
Qed.

Lemma max2_swap (a c z : float) :
  is_nan a = false -> is_nan c = false ->
  (z <? Builtin.max2 c a) = (z <? Builtin.max2 a c).
Proof.
  intros Ha Hc. unfold Builtin.max2, Np.gt.
  destruct (c <? a) eqn:Hca.
  - now rewrite (ltb_asym _ _ Hca).
  - destruct (a <? c) eqn:Hac; [reflexivity|].
    apply eqb_ltb_r. now apply eqb_of_not_ltb.
Qed.

Lemma in_box_swap (a b c d : float) (p : float * float) :
  is_nan a = false -> is_nan b = false ->
  is_nan c = false -> is_nan d = false ->
  ToolSpec.in_box a b c d p = ToolSpec.in_box c d a b p.
Proof.
  intros Ha Hb Hc Hd. destruct p as [px py].
  unfold ToolSpec.in_box, Spec.in_rectangle, Np.gt.
  now rewrite (min2_swap a c px), (max2_swap a c px),
              (min2_swap b d py), (max2_swap b d py).
Qed.

(** X16. The direction of a drag does not matter: when no coordinate is a
    NaN, dragging from [(a, b)] to [(c, d)] and dragging from [(c, d)] to
    [(a, b)] assign the subset the same mask. *)
Theorem X16_box_tool_direction (s : t) (a b c d : float) (k1 k2 : Z)
        (ev : event) :
  length (data_x s) = length (data_y s) ->
  inaxes ev = true ->
  is_nan a = false -> is_nan b = false ->
  is_nan c = false -> is_nan d = false ->
  mask (tool_of (dispatch on [button_press_event (ToolSpec.at_point a b k1);
                              motion_notify_event (ToolSpec.at_point c d k2);
                              button_release_event ev] s)) =
  mask (tool_of (dispatch on [button_press_event (ToolSpec.at_point c d k1);
                              motion_notify_event (ToolSpec.at_point a b k2);
                              button_release_event ev] s)).
Proof.
  intros Hl Hin Ha Hb Hc Hd.
  destruct (box_tool_drag_state s a b c d k1 k2 ev Hl Hin)
    as (s1 & E1 & M1).
  destruct (box_tool_drag_state s c d a b k1 k2 ev Hl Hin)
    as (s2 & E2 & M2).
  rewrite E1, E2. cbn [tool_of]. rewrite M1, M2. f_equal.
  apply map_ext. intros p. now apply in_box_swap.
Qed.

Lemma X16_box_tool_direction_witness :
  mask (tool_of (dispatch on [button_press_event (ToolSpec.at_point 2 2 1);
                              motion_notify_event (ToolSpec.at_point 0 3 1);
                              button_release_event (ToolSpec.at_point 0 3 1)]
                          (init [1; 5] [2.5; 2.5]))) =
  mask (tool_of (dispatch on [button_press_event (ToolSpec.at_point 0 3 1);
                              motion_notify_event (ToolSpec.at_point 2 2 1);
                              button_release_event (ToolSpec.at_point 0 3 1)]
                          (init [1; 5] [2.5; 2.5]))).
Proof.
  apply (X16_box_tool_direction (init [1; 5] [2.5; 2.5]) 2 2 0 3 1 1
                                (ToolSpec.at_point 0 3 1)); reflexivity.
Defined.

End BoxToolDirection.

(** ** MplCircleTool *)

Section CircleTool.

Import Mpl MplCircleTool.
Open Scope float_scope.

Lemma sync_patch_roi (ax : axes) (b : MplCircularROI.t) :
  MplCircularROI.roi (MplCircularROI.sync_patch ax b) = MplCircularROI.roi b
  /\ MplCircularROI.visible
       (MplCircularROI.circle (MplCircularROI.sync_patch ax b)) =
     CircularROI.defined (MplCircularROI.roi b).
Proof.
  unfold MplCircularROI.sync_patch.
  destruct (CircularROI.defined (MplCircularROI.roi b)); cbn; auto.
Qed.

Variable pow2 : float -> float.

Lemma circle_start_roi (ax : axes) (s : t) (ev : event) :
  inaxes ev = true ->
  exists b,
    start_selection ax s ev =
    Returned (mk b (data_x s) (data_y s) (mask s)
                 (Some (xdata ev)) (Some (ydata ev)) true)
    /\ MplCircularROI.roi b =
       CircularROI.mk (Some (xdata ev)) (Some (ydata ev))
                      (Np.mk_scalar Np.PyFloat 0)
    /\ MplCircularROI.visible (MplCircularROI.circle b) = true.
Proof.
  intros H. unfold start_selection. rewrite H. cbn [negb].
  eexists. split; [reflexivity|]. split; reflexivity.
Qed.

Lemma circle_update_roi (ax : axes) (s : t) (ev : event) (a b : float) :
  inaxes ev = true -> active s = true -> xi s = Some a -> yi s = Some b ->
  exists bs,
    update_selection ax s ev =
    Returned (mk bs (data_x s) (data_y s) (mask s) (xi s) (yi s) (active s))
    /\ MplCircularROI.roi bs =
       CircularROI.set_radius
         (MplCircularROI.roi (base s))
         (Np.mk_scalar Np.Float64
                       (ToolSpec.drag_radius ax a b (xdata ev) (ydata ev)))
    /\ MplCircularROI.visible (MplCircularROI.circle bs) =
       CircularROI.defined (MplCircularROI.roi (base s)).
Proof.
  intros H Ha Hx Hy. unfold update_selection. rewrite H, Ha, Hx, Hy.
  cbn [negb]. eexists. split; [reflexivity|].
  unfold MplCircularROI.set_radius.
  destruct (sync_patch_roi
              ax (MplCircularROI.mk
                    (CircularROI.set_radius
                       (MplCircularROI.roi (base s))
                       (Np.mk_scalar
                          Np.Float64
                          (sqrt ((xdata ev - a) * (xdata ev - a) +
                                 (ydata ev - b) * aspect_ratio ax *
                                 ((ydata ev - b) * aspect_ratio ax)))))
                    (MplCircularROI.circle (base s))
                    (MplCircularROI.draws (base s)))) as [R V].
  split; [exact R | exact V].
Qed.

Lemma circle_finalize_roi (ax : axes) (s : t) (ev : event)
      (cx cy : float) (r : Np.scalar) :
  inaxes ev = true -> active s = true ->
  MplCircularROI.roi (base s) = CircularROI.mk (Some cx) (Some cy) r ->
  Np.kind_of r = Np.Float64 \/ r = Np.mk_scalar Np.PyFloat 0 ->
  length (data_x s) = length (data_y s) ->
  exists bs,
    finalize_selection pow2 ax s ev =
    Returned (mk bs (data_x s) (data_y s)
                 (Some (map (Spec.in_circle
                               cx cy (Spec.power2 pow2 (Np.value r)))
                            (combine (data_x s) (data_y s))))
                 (xi s) (yi s) false)
    /\ MplCircularROI.roi bs =
       CircularROI.mk None None (Np.mk_scalar Np.PyFloat 0)
    /\ MplCircularROI.visible (MplCircularROI.circle bs) = false.
Proof.
  intros H Ha Hr Hk Hl. unfold finalize_selection. rewrite H, Ha, Hr.
  cbn [negb]. destruct r as [k r]. cbn [Np.kind_of Np.value] in *.
  rewrite circle_contains_defined by assumption.
  assert (Ho : Spec.overflows pow2 k r = false).
  { destruct Hk as [->|Hk]; [reflexivity|].
    injection Hk as -> ->. now apply overflows_zero. }
  rewrite Ho.
  eexists. split; [reflexivity|].
  unfold MplCircularROI.reset.
  destruct (sync_patch_roi
              ax (MplCircularROI.mk
                    (CircularROI.reset (MplCircularROI.roi (base s)))
                    (MplCircularROI.circle (base s))
                    (MplCircularROI.draws (base s)))) as [R V].
  split; [exact R | exact V].
Qed.

Lemma circle_on_invariant (ax : axes) (s : t) (sg : signal) :
  ToolSpec.circle_invariant s ->
  length (data_x s) = length (data_y s) ->
  exists s', on pow2 ax s sg = Returned s'
             /\ ToolSpec.circle_invariant s'
             /\ data_x s' = data_x s /\ data_y s' = data_y s.
Proof.
  intros (Ha & Hxy & Hr & Hk & Hv) Hl.
  assert (Hkeep : exists s', Returned s = Returned s'
                             /\ ToolSpec.circle_invariant s'
                             /\ data_x s' = data_x s /\ data_y s' = data_y s).
  { exists s. split; [reflexivity|]. split; [|split; reflexivity].
    exact (conj Ha (conj Hxy (conj Hr (conj Hk Hv)))). }
  destruct sg as [ev|ev|ev]; cbn [on].
  - destruct (inaxes ev) eqn:Hin;
      [|unfold start_selection; now rewrite Hin].
    destruct (circle_start_roi ax s ev Hin) as (b & E & R & V).
    rewrite E. eexists. split; [reflexivity|]. split; [|split; reflexivity].
    unfold ToolSpec.circle_invariant. cbn [base active xi yi]. rewrite R, V.
    split; [reflexivity|].
    split; [intros _; repeat split; eexists; reflexivity|].
    split; [reflexivity|]. split; [now right | reflexivity].
  - destruct (inaxes ev) eqn:Hin;
      [|unfold update_selection; now rewrite Hin].
    destruct (active s) eqn:Hact;
      [|unfold update_selection; now rewrite Hin, Hact].
    destruct (Hxy eq_refl) as ([a Hx] & [b Hy] & [cy Hc]).
    destruct (circle_update_roi ax s ev a b Hin Hact Hx Hy)
      as (bs & E & R & V).
    rewrite E. eexists. split; [reflexivity|]. split; [|split; reflexivity].
    unfold ToolSpec.circle_invariant. cbn [base active xi yi]. rewrite R, V.
    split; [rewrite Hact; exact Ha|].
    split; [intros _; rewrite Hx, Hy;
            split; [eexists; reflexivity|];
            split; [eexists; reflexivity | exists cy; exact Hc]|].
    split; [apply sqrt_not_below_zero|]. split; [now left | reflexivity].
  - destruct (inaxes ev) eqn:Hin;
      [|unfold finalize_selection; now rewrite Hin].
    destruct (active s) eqn:Hact;
      [|unfold finalize_selection; now rewrite Hin, Hact].
    destruct (Hxy eq_refl) as (_ & _ & [cy Hc]).
    destruct (MplCircularROI.roi (base s)) as [[cx|] yc0 r] eqn:Er;
      [|discriminate].
    cbn in Hc. subst yc0. cbn [CircularROI.radius] in Hk.
    destruct (circle_finalize_roi ax s ev cx cy r Hin Hact Er Hk Hl)
      as (bs & E & R & V).
    rewrite E. eexists. split; [reflexivity|]. split; [|split; reflexivity].
    unfold ToolSpec.circle_invariant. cbn [base active xi yi]. rewrite R, V.
    split; [reflexivity|]. split; [discriminate|].
    split; [reflexivity|]. split; [now right | reflexivity].
Qed.

Lemma circle_dispatch_invariant (sigs : list (axes * signal)) :
  forall s, ToolSpec.circle_invariant s ->
            length (data_x s) = length (data_y s) ->
            exists s',
              dispatch (fun s g => on pow2 (fst g) s (snd g)) sigs s =
              Returned s'
              /\ ToolSpec.circle_invariant s'.
Proof.
  induction sigs as [|[ax sg] sigs IH]; intros s Hs Hl; cbn [dispatch].
  - now exists s.
  - cbn [fst snd].
    destruct (circle_on_invariant ax s sg Hs Hl) as (s1 & E & H1 & Dx & Dy).
    rewrite E. apply IH; [assumption|]. now rewrite Dx, Dy.
Qed.

(** X17. On data arrays of equal length, whatever presses, motions and
    releases reach a new circle tool, on whatever axes each, no handler
    fails, and after each of them: a selection is active exactly when the
    centre is set, which is when the patch is visible, the radius is never
    below zero, and it is either a float64 or the Python float [0.], whose
    squares do not raise. *)
Theorem X17_circle_tool_invariant (ax : axes) (x y : list float)
        (sigs : list (axes * signal)) :
  length x = length y ->
  exists s,
    dispatch (fun s g => on pow2 (fst g) s (snd g)) sigs (init ax x y) =
    Returned s
    /\ ToolSpec.circle_invariant s.
Proof.
  intros Hl. apply circle_dispatch_invariant; [|exact Hl].
  split; [reflexivity|]. split; [discriminate|].
  split; [reflexivity|]. split; [now right | reflexivity].
Qed.

(** X18. A drag with the circle tool selects the samples of the circle
    centred where the press was, whose radius is the distance dragged with
    dy scaled by the aspect ratio of the axes at the motion,
    [sqrt(dx * dx + dy * dy)], a float64 whose square is the power of the C
    library; afterwards the tool is inactive, the circle undefined and its
    patch hidden. *)
Theorem X18_circle_tool_drag (ax1 ax2 ax3 : axes) (s : t) (a b c d : float)
        (k1 k2 : Z) (ev : event) :
  length (data_x s) = length (data_y s) ->
  inaxes ev = true ->
  exists s',
    dispatch (fun s g => on pow2 (fst g) s (snd g))
             [(ax1, button_press_event (ToolSpec.at_point a b k1));
              (ax2, motion_notify_event (ToolSpec.at_point c d k2));
              (ax3, button_release_event ev)] s = Returned s'
    /\ mask s' = Some (map (Spec.in_circle
                              a b
                              (Spec.power2
                                 pow2 (ToolSpec.drag_radius ax2 a b c d)))
                           (combine (data_x s) (data_y s)))
    /\ active s' = false
    /\ CircularROI.defined (MplCircularROI.roi (base s')) = false
    /\ MplCircularROI.visible (MplCircularROI.circle (base s')) = false.
Proof.
  intros Hl Hin. cbn [dispatch fst snd on].
  destruct (circle_start_roi ax1 s (ToolSpec.at_point a b k1) eq_refl)
    as (b1 & E1 & R1 & V1).
  rewrite E1. clear E1. cbn [ToolSpec.at_point xdata ydata] in *.
  set (s1 := mk b1 (data_x s) (data_y s) (mask s) (Some a) (Some b) true).
  destruct (circle_update_roi ax2 s1 (ToolSpec.at_point c d k2) a b
                              eq_refl eq_refl eq_refl eq_refl)
    as (b2 & E2 & R2 & V2).
  rewrite E2. clear E2. cbn [ToolSpec.at_point xdata ydata] in *.
  subst s1. cbn [base data_x data_y mask xi yi active] in *.
  rewrite R1 in R2. cbn [CircularROI.set_radius CircularROI.xc CircularROI.yc]
    in R2.
  set (s2 := mk b2 (data_x s) (data_y s) (mask s) (Some a) (Some b) true).
  destruct (circle_finalize_roi
              ax3 s2 ev a b
              (Np.mk_scalar Np.Float64 (ToolSpec.drag_radius ax2 a b c d))
              Hin eq_refl R2 (or_introl eq_refl) Hl)
    as (b3 & E3 & R3 & V3).
  rewrite E3. eexists. split; [reflexivity|].
  cbn [mask active base]. rewrite R3, V3. repeat split.
Qed.

(** X19. A click with the circle tool selects nothing: a press and a
    release inside the axes, with no motion between them, test the circle
    of radius 0 and assign the subset a mask that is false everywhere. *)
Theorem X19_circle_tool_click (ax1 ax2 : axes) (s : t) (a b : float) (k : Z)
        (ev : event) :
  length (data_x s) = length (data_y s) ->
  inaxes ev = true ->
  exists s',
    dispatch (fun s g => on pow2 (fst g) s (snd g))
             [(ax1, button_press_event (ToolSpec.at_point a b k));
              (ax2, button_release_event ev)] s = Returned s'
    /\ mask s' = Some (repeat false (length (data_x s))).
Proof.
  intros Hl Hin. cbn [dispatch fst snd on].
  destruct (circle_start_roi ax1 s (ToolSpec.at_point a b k) eq_refl)
    as (b1 & E1 & R1 & V1).
  rewrite E1. clear E1. cbn [ToolSpec.at_point xdata ydata] in *.
  set (s1 := mk b1 (data_x s) (data_y s) (mask s) (Some a) (Some b) true).
  destruct (circle_finalize_roi ax2 s1 ev a b (Np.mk_scalar Np.PyFloat 0)
                                Hin eq_refl R1 (or_intror eq_refl) Hl)
    as (b3 & E3 & R3 & V3).
  rewrite E3. eexists. split; [reflexivity|]. cbn [mask]. f_equal.
  subst s1. cbn [data_x data_y].
  rewrite map_false_repeat.
  - now rewrite length_combine, <- Hl, Nat.min_id.
  - intros p. apply in_circle_zero. reflexivity.
Qed.

End CircleTool.

Section CircleToolSelections.

Import Mpl MplCircleTool.
Open Scope float_scope.

Lemma X17_circle_tool_invariant_witness :
  exists s,
    dispatch (fun s g => on Np.rounded_pow2 (fst g) s (snd g))
             [(mk_axes 1 1 4 4 (0, 1) (0, 1),
               button_press_event (ToolSpec.at_point 0 0 1));
              (mk_axes 1 1 4 4 (0, 1) (0, 1),
               motion_notify_event (ToolSpec.at_point 3 4 1))]
             (init (mk_axes 1 1 4 4 (0, 1) (0, 1)) [1; 9] [1; 9]) = Returned s
    /\ ToolSpec.circle_invariant s.
Proof.
  apply (X17_circle_tool_invariant Np.rounded_pow2
                                   (mk_axes 1 1 4 4 (0, 1) (0, 1))
                                   [1; 9] [1; 9]).
  reflexivity.
Defined.

Lemma X18_circle_tool_drag_witness :
  exists s',
    dispatch (fun s g => on Np.rounded_pow2 (fst g) s (snd g))
             [(mk_axes 1 1 4 4 (0, 1) (0, 1),
               button_press_event (ToolSpec.at_point 0 0 1));
              (mk_axes 1 1 4 4 (0, 1) (0, 1),
               motion_notify_event (ToolSpec.at_point 3 4 1));
              (mk_axes 1 1 4 4 (0, 1) (0, 1),
               button_release_event (ToolSpec.at_point 3 4 1))]
             (init (mk_axes 1 1 4 4 (0, 1) (0, 1)) [1; 9] [1; 9])
    = Returned s'
    /\ mask s' =
       Some (map (Spec.in_circle
                    0 0
                    (Spec.power2
                       Np.rounded_pow2
                       (ToolSpec.drag_radius (mk_axes 1 1 4 4 (0, 1) (0, 1))
                                             0 0 3 4)))
                 (combine (data_x (init (mk_axes 1 1 4 4 (0, 1) (0, 1))
                                        [1; 9] [1; 9]))
                          (data_y (init (mk_axes 1 1 4 4 (0, 1) (0, 1))
                                        [1; 9] [1; 9]))))
    /\ active s' = false
    /\ CircularROI.defined (MplCircularROI.roi (base s')) = false
    /\ MplCircularROI.visible (MplCircularROI.circle (base s')) = false.
Proof.
  apply (X18_circle_tool_drag
           Np.rounded_pow2
           (mk_axes 1 1 4 4 (0, 1) (0, 1)) (mk_axes 1 1 4 4 (0, 1) (0, 1))
           (mk_axes 1 1 4 4 (0, 1) (0, 1))
           (init (mk_axes 1 1 4 4 (0, 1) (0, 1)) [1; 9] [1; 9])
           0 0 3 4 1 1 (ToolSpec.at_point 3 4 1)); reflexivity.
Defined.

Lemma X19_circle_tool_click_witness :
  exists s',
    dispatch (fun s g => on Np.rounded_pow2 (fst g) s (snd g))
             [(mk_axes 1 1 4 4 (0, 1) (0, 1),
               button_press_event (ToolSpec.at_point 1 1 1));
              (mk_axes 1 1 4 4 (0, 1) (0, 1),
               button_release_event (ToolSpec.at_point 1 1 1))]
             (init (mk_axes 1 1 4 4 (0, 1) (0, 1)) [1; 9] [1; 9])
    = Returned s'
    /\ mask s' =
       Some (repeat false
                    (length (data_x (init (mk_axes 1 1 4 4 (0, 1) (0, 1))
                                          [1; 9] [1; 9])))).
Proof.
  apply (X19_circle_tool_click
           Np.rounded_pow2
           (mk_axes 1 1 4 4 (0, 1) (0, 1)) (mk_axes 1 1 4 4 (0, 1) (0, 1))
           (init (mk_axes 1 1 4 4 (0, 1) (0, 1)) [1; 9] [1; 9])
           1 1 1 (ToolSpec.at_point 1 1 1)); reflexivity.
Defined.

End CircleToolSelections.

(** ** MplPolygonTool *)

Section PolygonTool.

Import Mpl MplPolygonTool.
Open Scope float_scope.

Lemma sync_patch_nonempty (r : PolygonalROI.t) (p : MplPolygonalROI.patch)
      (d : nat) :
  PolygonalROI.vx r <> [] -> PolygonalROI.vy r <> [] ->
  exists b, MplPolygonalROI.sync_patch (MplPolygonalROI.mk r p d) = Done b
            /\ MplPolygonalROI.roi b = r
            /\ MplPolygonalROI.visible (MplPolygonalROI.polygon b) = true.
Proof.
  intros Hx Hy. destruct r as [[|x0 xs] [|y0 ys]]; cbn in Hx, Hy;
    try contradiction.
  eexists. split; [reflexivity|]. split; reflexivity.
Qed.

Lemma sync_patch_empty (r : PolygonalROI.t) (p : MplPolygonalROI.patch)
      (d : nat) :
  PolygonalROI.vx r = [] ->
  MplPolygonalROI.sync_patch (MplPolygonalROI.mk r p d) =
  Done (MplPolygonalROI.mk
          r (MplPolygonalROI.mk_patch (MplPolygonalROI.xy p) false) (S d)).
Proof.
  intros Hx. unfold MplPolygonalROI.sync_patch, PolygonalROI.defined.
  cbn [MplPolygonalROI.roi MplPolygonalROI.polygon MplPolygonalROI.draws].
  now rewrite Hx.
Qed.

Lemma mpl_add_point_done (b : MplPolygonalROI.t) (x y : float) :
  exists b',
    MplPolygonalROI.add_point b x y = Done b'
    /\ MplPolygonalROI.roi b' =
       PolygonalROI.add_point (MplPolygonalROI.roi b) x y
    /\ MplPolygonalROI.visible (MplPolygonalROI.polygon b') = true.
Proof.
  unfold MplPolygonalROI.add_point. apply sync_patch_nonempty.
  - cbn. now destruct (PolygonalROI.vx (MplPolygonalROI.roi b)).
  - cbn. now destruct (PolygonalROI.vy (MplPolygonalROI.roi b)).
Qed.

Lemma mpl_replace_after_add (b : MplPolygonalROI.t) (r : PolygonalROI.t)
      (a c x y : float) :
  MplPolygonalROI.roi b = PolygonalROI.add_point r a c ->
  exists b',
    MplPolygonalROI.replace_last_point b x y = Done b'
    /\ MplPolygonalROI.roi b' = PolygonalROI.add_point r x y
    /\ MplPolygonalROI.visible (MplPolygonalROI.polygon b') = true.
Proof.
  intros Hr. unfold MplPolygonalROI.replace_last_point.
  rewrite Hr, replace_after_add. apply sync_patch_nonempty.
  - cbn. now destruct (PolygonalROI.vx r).
  - cbn. now destruct (PolygonalROI.vy r).
Qed.

Lemma mpl_reset_done (b : MplPolygonalROI.t) :
  MplPolygonalROI.reset b =
  Done (MplPolygonalROI.mk
          (PolygonalROI.mk [] [])
          (MplPolygonalROI.mk_patch
             (MplPolygonalROI.xy (MplPolygonalROI.polygon b)) false)
          (S (MplPolygonalROI.draws b))).
Proof. reflexivity. Qed.

Lemma add_vertex_in_axes (s : t) (ev : event) :
  inaxes ev = true -> button ev = 1%Z ->
  exists b,
    add_vertex s ev = Returned (mk b (data_x s) (data_y s) (mask s) true)
    /\ MplPolygonalROI.roi b =
       PolygonalROI.add_point (MplPolygonalROI.roi (base s))
                              (xdata ev) (ydata ev)
    /\ MplPolygonalROI.visible (MplPolygonalROI.polygon b) = true.
Proof.
  intros Hin Hb. unfold add_vertex. rewrite Hin, Hb. cbn [negb Z.eqb].
  destruct (mpl_add_point_done (base s) (xdata ev) (ydata ev))
    as (b & E & R & V).
  rewrite E. cbn [with_base]. exists b.
  split; [reflexivity|]. split; assumption.
Qed.

Lemma polygon_update_in_axes (s : t) (ev : event) (r : PolygonalROI.t)
      (a c : float) :
  inaxes ev = true -> active s = true ->
  MplPolygonalROI.roi (base s) = PolygonalROI.add_point r a c ->
  exists b,
    update_selection s ev =
    Returned (mk b (data_x s) (data_y s) (mask s) true)
    /\ MplPolygonalROI.roi b = PolygonalROI.add_point r (xdata ev) (ydata ev)
    /\ MplPolygonalROI.visible (MplPolygonalROI.polygon b) = true.
Proof.
  intros Hin Ha Hr. unfold update_selection. rewrite Hin, Ha. cbn [negb].
  destruct (mpl_replace_after_add (base s) r a c (xdata ev) (ydata ev) Hr)
    as (b & E & R & V).
  rewrite E. cbn [with_base]. exists b.
  split; [now rewrite Ha|]. split; assumption.
Qed.

Lemma polygon_finalize_in_axes (s : t) (ev : event) (v : Spec.vertex)
      (vs : list Spec.vertex) :
  inaxes ev = true -> active s = true -> button ev = 3%Z ->
  MplPolygonalROI.roi (base s) = PolygonalROI.of_vertices (v :: vs) ->
  length (data_x s) = length (data_y s) ->
  finalize_selection s ev =
  Returned
    (mk (MplPolygonalROI.mk
           (PolygonalROI.mk [0] [0])
           (MplPolygonalROI.mk_patch
              (MplPolygonalROI.xy (MplPolygonalROI.polygon (base s))) false)
           (S (MplPolygonalROI.draws (base s))))
        (data_x s) (data_y s)
        (Some (Np.BoolArray (map (Spec.inside (v :: vs))
                                 (combine (data_x s) (data_y s)))))
        true).
Proof.
  intros Hin Ha Hb Hr Hl. unfold finalize_selection.
  rewrite Hin, Ha, Hb, Hr. cbn [negb Z.eqb].
  rewrite contains_even_odd by assumption. reflexivity.
Qed.

Lemma press_order (s : t) (ev : event) :
  match add_vertex s ev with
  | Returned s1 => finalize_selection s1 ev
  | Failed f s1 => Failed f s1
  end =
  match finalize_selection s ev with
  | Returned s1 => add_vertex s1 ev
  | Failed f s1 => Failed f s1
  end.
Proof.
  destruct (inaxes ev) eqn:Hin.
  - destruct (Z.eqb (button ev) 1) eqn:H1.
    + assert (H3 : Z.eqb (button ev) 3 = false).
      { apply Z.eqb_eq in H1. rewrite H1. reflexivity. }
      assert (Hf : forall s0, finalize_selection s0 ev = Returned s0).
      { intros s0. unfold finalize_selection. rewrite Hin, H3.
        cbn [negb]. now destruct (active s0). }
      rewrite Hf.
      destruct (add_vertex s ev) as [s1|f s1]; [apply Hf | reflexivity].
    + assert (Ha : forall s0, add_vertex s0 ev = Returned s0).
      { intros s0. unfold add_vertex. now rewrite Hin, H1. }
      rewrite Ha.
      destruct (finalize_selection s ev) as [s1|f s1];
        [now rewrite Ha | reflexivity].
  - unfold add_vertex, finalize_selection. rewrite Hin. reflexivity.
Qed.

(** X20. The two callbacks a polygon tool connects to the button press can
    run in either order: on every state and every event, [add_vertex] then
    [finalize_selection] leaves what [finalize_selection] then [add_vertex]
    leaves, since at most one of the two acts on an event. *)
Theorem X20_polygon_tool_press_order (s : t) (ev : event) :
  match add_vertex s ev with
  | Returned s1 => finalize_selection s1 ev
  | Failed f s1 => Failed f s1
  end =
  match finalize_selection s ev with
  | Returned s1 => add_vertex s1 ev
  | Failed f s1 => Failed f s1
  end.
Proof.
  destruct (inaxes ev) eqn:Hin.
  - destruct (Z.eqb (button ev) 1) eqn:H1.
    + assert (H3 : Z.eqb (button ev) 3 = false).
      { apply Z.eqb_eq in H1. rewrite H1. reflexivity. }
      assert (Hf : forall s0, finalize_selection s0 ev = Returned s0).
      { intros s0. unfold finalize_selection. rewrite Hin, H3.
        cbn [negb]. now destruct (active s0). }
      rewrite Hf.
      destruct (add_vertex s ev) as [s1|f s1]; [apply Hf | reflexivity].
    + assert (Ha : forall s0, add_vertex s0 ev = Returned s0).
      { intros s0. unfold add_vertex. now rewrite Hin, H1. }
      rewrite Ha.
      destruct (finalize_selection s ev) as [s1|f s1];
        [now rewrite Ha | reflexivity].
  - unfold add_vertex, finalize_selection. rewrite Hin. reflexivity.
Qed.

(** X21. The vertex a click adds follows the pointer: from any state of a
    polygon tool, a left click at [(a, b)] followed by a motion to
    [(c, d)], both inside the axes, leaves the polygon the state had with
    the one vertex [(c, d)] appended, and the patch visible. *)
Theorem X21_polygon_tool_rubber_band (s : t) (a b c d : float) (k : Z) :
  exists s',
    dispatch on [button_press_event (ToolSpec.at_point a b 1);
                 motion_notify_event (ToolSpec.at_point c d k)] s
    = Returned s'
    /\ MplPolygonalROI.roi (base s') =
       PolygonalROI.add_point (MplPolygonalROI.roi (base s)) c d
    /\ active s' = true
    /\ MplPolygonalROI.visible (MplPolygonalROI.polygon (base s')) = true.
Proof.
  cbn [dispatch on].
  destruct (add_vertex_in_axes s (ToolSpec.at_point a b 1) eq_refl eq_refl)
    as (b1 & E1 & R1 & V1).
  rewrite E1. clear E1. cbn [ToolSpec.at_point xdata ydata] in R1.
  set (s1 := mk b1 (data_x s) (data_y s) (mask s) true).
  assert (Hf : finalize_selection s1 (ToolSpec.at_point a b 1) = Returned s1)
    by reflexivity.
  rewrite Hf.
  destruct (polygon_update_in_axes
              s1 (ToolSpec.at_point c d k) (MplPolygonalROI.roi (base s))
              a b eq_refl eq_refl R1) as (b2 & E2 & R2 & V2).
  rewrite E2. eexists. split; [reflexivity|].
  cbn [base active]. auto.
Qed.

Lemma defined_snoc (l : list Spec.vertex) (v : Spec.vertex) :
  PolygonalROI.defined (PolygonalROI.of_vertices (l ++ [v])) = true.
Proof.
  unfold PolygonalROI.defined, PolygonalROI.of_vertices.
  cbn [PolygonalROI.vx]. now rewrite map_app, length_app, Nat.add_1_r.
Qed.

Lemma paired_defined_vertices (r : PolygonalROI.t) :
  Spec.paired r -> PolygonalROI.defined r = true ->
  exists v vs, r = PolygonalROI.of_vertices (v :: vs).
Proof.
  intros Hp Hd. apply paired_of_vertices in Hp.
  destruct r as [[|x xs] [|y ys]]; cbn in *; try discriminate.
  exists (x, y), (combine xs ys). now rewrite <- Hp.
Qed.

Lemma polygon_on_invariant (s : t) (sg : signal) :
  ToolSpec.polygon_tool_invariant s ->
  length (data_x s) = length (data_y s) ->
  exists s', on s sg = Returned s'
             /\ ToolSpec.polygon_tool_invariant s'
             /\ data_x s' = data_x s /\ data_y s' = data_y s.
Proof.
  intros (Ha & Hp & Hd) Hl.
  assert (Hkeep : forall s0, s0 = s ->
                    exists s', Returned s0 = Returned s'
                               /\ ToolSpec.polygon_tool_invariant s'
                               /\ data_x s' = data_x s
                               /\ data_y s' = data_y s).
  { intros s0 ->. exists s. split; [reflexivity|].
    split; [|split; reflexivity]. exact (conj Ha (conj Hp Hd)). }
  destruct (paired_defined_vertices _ Hp Hd) as (v & vs & Hr).
  destruct sg as [ev|ev|ev]; cbn [on]; [| |now apply Hkeep].
  - rewrite press_order.
    destruct (inaxes ev) eqn:Hin;
      [|unfold finalize_selection, add_vertex; rewrite Hin; cbn [negb];
        now apply Hkeep].
    destruct (Z.eqb_spec (button ev) 3) as [H3|H3].
    + rewrite (polygon_finalize_in_axes s ev v vs) by assumption.
      unfold add_vertex. cbn [negb]. rewrite Hin, H3. cbn [negb Z.eqb].
      eexists. split; [reflexivity|]. split; [|split; reflexivity].
      split; [reflexivity|]. split; reflexivity.
    + assert (Hf : finalize_selection s ev = Returned s).
      { unfold finalize_selection. rewrite Hin, Ha. cbn [negb].
        destruct (Z.eqb_spec (button ev) 3); [contradiction|reflexivity]. }
      rewrite Hf.
      destruct (Z.eqb_spec (button ev) 1) as [H1|H1].
      * destruct (add_vertex_in_axes s ev Hin H1) as (b & E & R & V).
        rewrite E. eexists. split; [reflexivity|].
        split; [|split; reflexivity].
        unfold ToolSpec.polygon_tool_invariant. cbn [base active].
        rewrite R, Hr, add_point_vertices.
        split; [reflexivity|]. split; [apply of_vertices_paired|].
        apply defined_snoc.
      * unfold add_vertex. rewrite Hin. cbn [negb].
        destruct (Z.eqb_spec (button ev) 1); [contradiction|].
        now apply Hkeep.
  - destruct (inaxes ev) eqn:Hin;
      [|unfold update_selection; rewrite Hin; now apply Hkeep].
    destruct (@exists_last _ (v :: vs)) as (l & [a c] & El); [discriminate|].
    rewrite El, <- add_point_vertices in Hr.
    destruct (polygon_update_in_axes s ev _ a c Hin Ha Hr)
      as (b & E & R & V).
    rewrite E. eexists. split; [reflexivity|]. split; [|split; reflexivity].
    unfold ToolSpec.polygon_tool_invariant. cbn [base active].
    rewrite R, add_point_vertices.
    split; [reflexivity|]. split; [apply of_vertices_paired|].
    apply defined_snoc.
Qed.

Lemma polygon_dispatch_invariant (sigs : list signal) :
  forall s, ToolSpec.polygon_tool_invariant s ->
            length (data_x s) = length (data_y s) ->
            exists s', dispatch on sigs s = Returned s'
                       /\ ToolSpec.polygon_tool_invariant s'.
Proof.
  induction sigs as [|sg sigs IH]; intros s Hs Hl; cbn [dispatch].
  - now exists s.
  - destruct (polygon_on_invariant s sg Hs Hl) as (s1 & E & H1 & Dx & Dy).
    rewrite E. apply IH; [assumption|]. now rewrite Dx, Dy.
Qed.

(** X22. On data arrays of equal length, whatever presses, motions and
    releases reach a new polygon tool, no handler fails, and after each of
    them the tool is active and its polygon has at least one vertex and as
    many x as y coordinates. *)
Theorem X22_polygon_tool_invariant (x y : list float) (sigs : list signal) :
  length x = length y ->
  exists s, dispatch on sigs (init x y) = Returned s
            /\ ToolSpec.polygon_tool_invariant s.
Proof.
  intros Hl. apply polygon_dispatch_invariant; [|exact Hl].
  split; [reflexivity|]. split; reflexivity.
Qed.

Lemma X22_polygon_tool_invariant_witness :
  exists s,
    dispatch on [motion_notify_event (ToolSpec.at_point 0 0 0);
                 button_press_event (ToolSpec.at_point 4 0 1);
                 button_press_event (ToolSpec.at_point 2 3 1);
                 button_press_event (ToolSpec.at_point 2 3 3)]
             (init [2; 5] [1; 1]) = Returned s
    /\ ToolSpec.polygon_tool_invariant s.
Proof. apply (X22_polygon_tool_invariant [2; 5] [1; 1]). reflexivity. Defined.

(** X23. A right click inside the axes tests the samples against the
    polygon as it stands, by the even-odd rule, and starts over: the mask
    is assigned, the polygon becomes the single vertex (0, 0), the tool
    stays active, and the patch is hidden although the polygon is
    defined. *)
Theorem X23_polygon_tool_right_click (s : t) (a b : float) (v : Spec.vertex)
        (vs : list Spec.vertex) :
  active s = true ->
  MplPolygonalROI.roi (base s) = PolygonalROI.of_vertices (v :: vs) ->
  length (data_x s) = length (data_y s) ->
  exists s',
    on s (button_press_event (ToolSpec.at_point a b 3)) = Returned s'
    /\ mask s' = Some (Np.BoolArray (map (Spec.inside (v :: vs))
                                         (combine (data_x s) (data_y s))))
    /\ MplPolygonalROI.roi (base s') = PolygonalROI.of_vertices [(0, 0)]
    /\ active s' = true
    /\ PolygonalROI.defined (MplPolygonalROI.roi (base s')) = true
    /\ MplPolygonalROI.visible (MplPolygonalROI.polygon (base s')) = false.
Proof.
  intros Ha Hr Hl. cbn [on].
  assert (Hv : add_vertex s (ToolSpec.at_point a b 3) = Returned s)
    by reflexivity.
  rewrite Hv.
  rewrite (polygon_finalize_in_axes s _ v vs) by (assumption || reflexivity).
  eexists. split; [reflexivity|]. repeat split.
Qed.

Lemma X23_polygon_tool_right_click_witness :
  exists s',
    on (init [2; 5] [1; 1]) (button_press_event (ToolSpec.at_point 1 1 3))
    = Returned s'
    /\ mask s' = Some (Np.BoolArray
                         (map (Spec.inside [(0, 0)])
                              (combine (data_x (init [2; 5] [1; 1]))
                                       (data_y (init [2; 5] [1; 1])))))
    /\ MplPolygonalROI.roi (base s') = PolygonalROI.of_vertices [(0, 0)]
    /\ active s' = true
    /\ PolygonalROI.defined (MplPolygonalROI.roi (base s')) = true
    /\ MplPolygonalROI.visible (MplPolygonalROI.polygon (base s')) = false.
Proof.
  apply (X23_polygon_tool_right_click (init [2; 5] [1; 1]) 1 1 (0, 0) []);
    reflexivity.
Defined.

End PolygonTool.

(** ** MplLassoTool *)

Section LassoTool.

Import Mpl MplLassoTool.
Open Scope float_scope.

Lemma dispatch_app (S G : Type) (on : S -> G -> handled S)
      (l1 l2 : list G) (s : S) :
  dispatch on (l1 ++ l2) s =
  match dispatch on l1 s with
  | Returned s1 => dispatch on l2 s1
  | Failed f s1 => Failed f s1
  end.
Proof.
  revert s. induction l1 as [|g l1 IH]; intros s; cbn [app dispatch].
  - reflexivity.
  - destruct (on s g) as [s1|f s1]; [apply IH | reflexivity].
Qed.

Lemma mpl_add_point_vertices (b : MplPolygonalROI.t) (vs : list Spec.vertex)
      (x y : float) :
  MplPolygonalROI.roi b = PolygonalROI.of_vertices vs ->
  exists b',
    MplPolygonalROI.add_point b x y = Done b'
    /\ MplPolygonalROI.roi b' = PolygonalROI.of_vertices (vs ++ [(x, y)])
    /\ ToolSpec.polygon_synced b'.
Proof.
  intros Hr. unfold MplPolygonalROI.add_point.
  rewrite Hr, add_point_vertices.
  destruct (sync_patch_vertices (vs ++ [(x, y)])
                                (MplPolygonalROI.polygon b)
                                (MplPolygonalROI.draws b))
    as (b' & E & R & H & _).
  exists b'. auto.
Qed.

Lemma lasso_start_in_axes (s : t) (ev : event) :
  inaxes ev = true ->
  exists b,
    start_selection s ev = Returned (mk b (data_x s) (data_y s) (mask s) true)
    /\ MplPolygonalROI.roi b = PolygonalROI.of_vertices [ToolSpec.point_of ev]
    /\ ToolSpec.polygon_synced b.
Proof.
  intros Hin. unfold start_selection. rewrite Hin. cbn [negb].
  rewrite mpl_reset_done. cbn [with_base base data_x data_y mask active].
  match goal with
  | |- context [MplPolygonalROI.add_point ?b0 _ _] =>
      destruct (mpl_add_point_vertices b0 [] (xdata ev) (ydata ev) eq_refl)
        as (b & E & R & H)
  end.
  rewrite E. cbn [with_base base data_x data_y mask active].
  exists b. split; [reflexivity|]. split; assumption.
Qed.

Lemma lasso_update_in_axes (s : t) (ev : event) (vs : list Spec.vertex) :
  inaxes ev = true -> active s = true ->
  MplPolygonalROI.roi (base s) = PolygonalROI.of_vertices vs ->
  exists b,
    update_selection s ev =
    Returned (mk b (data_x s) (data_y s) (mask s) true)
    /\ MplPolygonalROI.roi b =
       PolygonalROI.of_vertices (vs ++ [ToolSpec.point_of ev])
    /\ ToolSpec.polygon_synced b.
Proof.
  intros Hin Ha Hr. unfold update_selection. rewrite Hin, Ha. cbn [negb].
  destruct (mpl_add_point_vertices (base s) vs (xdata ev) (ydata ev) Hr)
    as (b & E & R & H).
  rewrite E. cbn [with_base]. exists b.
  split; [now rewrite Ha|]. split; assumption.
Qed.

Lemma lasso_finalize (s : t) (ev : event) (v : Spec.vertex)
      (vs : list Spec.vertex) :
  active s = true ->
  MplPolygonalROI.roi (base s) = PolygonalROI.of_vertices (v :: vs) ->
  length (data_x s) = length (data_y s) ->
  finalize_selection s ev =
  Returned
    (mk (MplPolygonalROI.mk
           (PolygonalROI.mk [] [])
           (MplPolygonalROI.mk_patch
              (MplPolygonalROI.xy (MplPolygonalROI.polygon (base s))) false)
           (S (MplPolygonalROI.draws (base s))))
        (data_x s) (data_y s)
        (Some (Np.BoolArray (map (Spec.inside (v :: vs))
                                 (combine (data_x s) (data_y s)))))
        false).
Proof.
  intros Ha Hr Hl. unfold finalize_selection. rewrite Ha, Hr. cbn [negb].
  rewrite contains_even_odd by assumption. reflexivity.
Qed.

Lemma lasso_on_invariant (s : t) (sg : signal) :
  ToolSpec.lasso_invariant s ->
  length (data_x s) = length (data_y s) ->
  exists s', on s sg = Returned s'
             /\ ToolSpec.lasso_invariant s'
             /\ data_x s' = data_x s /\ data_y s' = data_y s.
Proof.
  intros (Hp & Ha & Hs) Hl.
  assert (Hkeep : exists s', Returned s = Returned s'
                             /\ ToolSpec.lasso_invariant s'
                             /\ data_x s' = data_x s /\ data_y s' = data_y s).
  { exists s. split; [reflexivity|]. split; [|split; reflexivity].
    exact (conj Hp (conj Ha Hs)). }
  destruct sg as [ev|ev|ev]; cbn [on].
  - destruct (inaxes ev) eqn:Hin;
      [|unfold start_selection; now rewrite Hin].
    destruct (lasso_start_in_axes s ev Hin) as (b & E & R & H).
    rewrite E. eexists. split; [reflexivity|]. split; [|split; reflexivity].
    unfold ToolSpec.lasso_invariant. cbn [base active]. rewrite R.
    split; [apply of_vertices_paired|]. split; [reflexivity|assumption].
  - destruct (inaxes ev) eqn:Hin;
      [|unfold update_selection; now rewrite Hin].
    destruct (active s) eqn:Hact;
      [|unfold update_selection; now rewrite Hin, Hact].
    destruct (lasso_update_in_axes s ev _ Hin Hact
                (eq_sym (proj1 (paired_of_vertices _) Hp)))
      as (b & E & R & H).
    rewrite E. eexists. split; [reflexivity|]. split; [|split; reflexivity].
    unfold ToolSpec.lasso_invariant. cbn [base active]. rewrite R.
    split; [apply of_vertices_paired|].
    split; [symmetry; apply defined_snoc | assumption].
  - destruct (active s) eqn:Hact;
      [|unfold finalize_selection; now rewrite Hact].
    destruct (paired_defined_vertices _ Hp (eq_sym Ha)) as (v & vs & Hr).
    rewrite (lasso_finalize s ev v vs) by assumption.
    eexists. split; [reflexivity|]. split; [|split; reflexivity].
    split; [reflexivity|]. split; reflexivity.
Qed.

Lemma lasso_dispatch_invariant (sigs : list signal) :
  forall s, ToolSpec.lasso_invariant s ->
            length (data_x s) = length (data_y s) ->
            exists s', dispatch on sigs s = Returned s'
                       /\ ToolSpec.lasso_invariant s'.
Proof.
  induction sigs as [|sg sigs IH]; intros s Hs Hl; cbn [dispatch].
  - now exists s.
  - destruct (lasso_on_invariant s sg Hs Hl) as (s1 & E & H1 & Dx & Dy).
    rewrite E. apply IH; [assumption|]. now rewrite Dx, Dy.
Qed.

(** X24. On data arrays of equal length, whatever presses, motions and
    releases reach a new lasso tool, no handler fails, and after each of
    them the polygon has as many x as y coordinates, a selection is active
    exactly when the polygon has a vertex, and the patch shows the polygon:
    hidden without vertices, else the closed outline. *)
Theorem X24_lasso_tool_invariant (x y : list float) (sigs : list signal) :
  length x = length y ->
  exists s, dispatch on sigs (init x y) = Returned s
            /\ ToolSpec.lasso_invariant s.
Proof.
  intros Hl. apply lasso_dispatch_invariant; [|exact Hl].
  split; [reflexivity|]. split; reflexivity.
Qed.

Lemma X24_lasso_tool_invariant_witness :
  exists s,
    dispatch on [button_press_event (ToolSpec.at_point 0 0 1);
                 motion_notify_event (ToolSpec.at_point 4 0 1);
                 motion_notify_event (ToolSpec.at_point 2 3 1)]
             (init [2; 5] [1; 1]) = Returned s
    /\ ToolSpec.lasso_invariant s.
Proof. apply (X24_lasso_tool_invariant [2; 5] [1; 1]). reflexivity. Defined.

Lemma lasso_motions (evs : list event) :
  forall (s : t) (vs : list Spec.vertex),
    Forall (fun ev => inaxes ev = true) evs ->
    active s = true ->
    MplPolygonalROI.roi (base s) = PolygonalROI.of_vertices vs ->
    exists b,
      dispatch on (map motion_notify_event evs) s =
      Returned (mk b (data_x s) (data_y s) (mask s) true)
      /\ MplPolygonalROI.roi b =
         PolygonalROI.of_vertices (vs ++ map ToolSpec.point_of evs).
Proof.
  induction evs as [|ev evs IH]; intros s vs Hall Ha Hr;
    cbn [map dispatch on].
  - exists (base s). rewrite app_nil_r. split; [|assumption].
    destruct s; cbn in *. now subst.
  - inversion Hall as [|? ? Hin Hall']; subst.
    destruct (lasso_update_in_axes s ev vs Hin Ha Hr) as (b & E & R & _).
    rewrite E.
    destruct (IH (mk b (data_x s) (data_y s) (mask s) true)
                 (vs ++ [ToolSpec.point_of ev]) Hall' eq_refl R)
      as (b' & E' & R').
    exists b'. split; [exact E'|].
    rewrite R'. now rewrite <- app_assoc.
Qed.

(** X25. The lasso selects what the path of the pointer encloses: from any
    state of the tool with data arrays of equal length, a press, then
    motions, all inside the axes, then a release anywhere, assign the subset
    the even-odd mask of the polygon whose vertices are the points of the
    press and of the motions, in order; afterwards the tool is inactive and
    the polygon has no vertex. *)
Theorem X25_lasso_tool_path (s : t) (ev0 : event) (evs : list event)
        (ev : event) :
  length (data_x s) = length (data_y s) ->
  inaxes ev0 = true ->
  Forall (fun e => inaxes e = true) evs ->
  exists s',
    dispatch on (button_press_event ev0
                   :: map motion_notify_event evs
                   ++ [button_release_event ev]) s
    = Returned s'
    /\ mask s' =
       Some (Np.BoolArray
               (map (Spec.inside (map ToolSpec.point_of (ev0 :: evs)))
                    (combine (data_x s) (data_y s))))
    /\ active s' = false
    /\ MplPolygonalROI.roi (base s') = PolygonalROI.of_vertices [].
Proof.
  intros Hl Hin Hall. cbn [dispatch on].
  destruct (lasso_start_in_axes s ev0 Hin) as (b1 & E1 & R1 & _).
  rewrite E1, dispatch_app.
  destruct (lasso_motions evs (mk b1 (data_x s) (data_y s) (mask s) true)
                          [ToolSpec.point_of ev0] Hall eq_refl R1)
    as (b2 & E2 & R2).
  rewrite E2. cbn [dispatch on data_x data_y mask].
  cbn [app map] in R2 |- *.
  rewrite (lasso_finalize _ ev (ToolSpec.point_of ev0)
                          (map ToolSpec.point_of evs))
    by (assumption || reflexivity).
  eexists. split; [reflexivity|]. repeat split.
Qed.

Lemma X25_lasso_tool_path_witness :
  exists s',
    dispatch on (button_press_event (ToolSpec.at_point 0 0 1)
                   :: map motion_notify_event
                          [ToolSpec.at_point 4 0 1; ToolSpec.at_point 2 3 1]
                   ++ [button_release_event (mk_event false 9 9 1)])
             (init [2; 5] [1; 1])
    = Returned s'
    /\ mask s' =
       Some (Np.BoolArray
               (map (Spec.inside
                       (map ToolSpec.point_of
                            (ToolSpec.at_point 0 0 1
                               :: [ToolSpec.at_point 4 0 1;
                                   ToolSpec.at_point 2 3 1])))
                    (combine (data_x (init [2; 5] [1; 1]))
                             (data_y (init [2; 5] [1; 1])))))
    /\ active s' = false
    /\ MplPolygonalROI.roi (base s') = PolygonalROI.of_vertices [].
Proof.
  apply (X25_lasso_tool_path
           (init [2; 5] [1; 1]) (ToolSpec.at_point 0 0 1)
           [ToolSpec.at_point 4 0 1; ToolSpec.at_point 2 3 1]
           (mk_event false 9 9 1)).
  - reflexivity.
  - reflexivity.
  - repeat constructor.
Defined.

End LassoTool.
